(** * Nine Picture Grid: slot reconciliation, upload/removal and export

    A shallow embedding of the client-side image-slot logic of the
    application:

    - [Index] (the page controller): the state hooks, the storage loader
      [loadImagesFromSupabase], the callbacks handed to the grid and
      [handleDownload];
    - [ImageGrid] / [ImageCell]: [handleFileChange] (validation) and
      [handleImageChange] (upload and removal);
    - [DebugPanel]: the log, the listeners its effect registers and
      [checkBucket].

    JavaScript strings are modelled as [string] (sequences of 8-bit code
    units), numbers as [nat], [N] or [Z], the image array
    [(string | null)[]] as [list (option string)].  Asynchronous code is a
    small free monad [proc]: visible effects in program order and one
    [Await] node for each call to the remote object store, whose settled
    result is supplied from outside. *)

From Stdlib Require Import ZArith NArith Ascii String List Lia Bool DecimalString.
From stdpp Require Import base list strings relations.

(** ** JavaScript strings and numbers *)

Module JS.

(** [s.startsWith(p)] *)
Definition startsWith (s p : string) : bool := String.prefix p s.

(** Truthiness of a string value: only the empty string is falsy. *)
Definition truthy (s : string) : bool :=
  match s with
  | EmptyString => false
  | String _ _ => true
  end.

(** Truthiness of a [string | null | undefined] value. *)
Definition truthy_opt (o : option string) : bool :=
  match o with
  | Some s => truthy s
  | None => false
  end.

(** The character class [\d]: the ten ASCII digits. *)
Definition is_digit (c : ascii) : bool :=
  ((48 <=? nat_of_ascii c)%nat && (nat_of_ascii c <=? 57)%nat)%bool.

Definition digit_val (c : ascii) : Z := (Z.of_nat (nat_of_ascii c) - 48)%Z.

(** Longest prefix of digits, and what follows it. *)
Fixpoint span_digits (s : string) : string * string :=
  match s with
  | EmptyString => (EmptyString, EmptyString)
  | String c s' =>
      if is_digit c
      then let '(d, r) := span_digits s' in (String c d, r)
      else (EmptyString, s)
  end.

Fixpoint parseInt_from (acc : Z) (s : string) : Z :=
  match s with
  | EmptyString => acc
  | String c s' => parseInt_from (10 * acc + digit_val c)%Z s'
  end.

(** [parseInt(s)] for a non-empty string of decimal digits (the only
    argument the program passes: capture group 1 of [(\d+)]).  The value
    is exact below 2^53; above, the double that JavaScript computes is
    rounded but still far outside the range [0 <= n - 1 < 9] that the
    program tests, so the test is decided the same way. *)
Definition parseInt (s : string) : Z := parseInt_from 0%Z s.

(** [strip_prefix p s]: what follows [p] in [s] when [s] starts with
    [p]. *)
Fixpoint strip_prefix (p s : string) : option string :=
  match p, s with
  | EmptyString, _ => Some s
  | String a p', String b s' =>
      if Ascii.eqb a b then strip_prefix p' s' else None
  | String _ _, EmptyString => None
  end.

(** [String(n)] for a non-negative integer, as a template literal
    inserts it. *)
Definition show (n : N) : string := NilZero.string_of_uint (N.to_uint n).

(** [s.split('/')] *)
Fixpoint split_slash (s : string) : list string :=
  match s with
  | EmptyString => [EmptyString]
  | String c s' =>
      if Ascii.eqb c "/"
      then EmptyString :: split_slash s'
      else match split_slash s' with
           | seg :: segs => String c seg :: segs
           | [] => [String c EmptyString]
           end
  end.

(** Does the string contain a ["/"]? *)
Fixpoint contains_slash (s : string) : bool :=
  match s with
  | EmptyString => false
  | String c s' => (Ascii.eqb c "/" || contains_slash s')%bool
  end.

(** [a[i] = v] on an array: in range the element is replaced; out of
    range the array grows and the skipped positions are holes, which read
    as [undefined] and are serialised as [null]; they are modelled as
    [None]. *)
Definition array_set {A} (a : list (option A)) (i : nat) (v : option A)
  : list (option A) :=
  if decide (i < length a)%nat
  then <[i := v]> a
  else a ++ replicate (i - length a) None ++ [v].

(** [a[i]]: [undefined] (out of range) and [null] both read as [None]. *)
Definition array_get {A} (a : list (option A)) (i : nat) : option A :=
  match a !! i with
  | Some v => v
  | None => None
  end.

End JS.

(** ** Object names: the two regular expressions of the loader *)

(** [s.match(/^slot-(\d+)-/)]: capture group 1 when [s] starts with
    ["slot-"], one or more digits and ["-"].  [\d+] is greedy and the
    character after it must be ["-"], which is no digit, so the only
    candidate is the longest run of digits. *)
Definition match_slot_anchored (s : string) : option string :=
  match JS.strip_prefix "slot-" s with
  | Some rest =>
      let '(d, r) := JS.span_digits rest in
      if (JS.truthy d && JS.startsWith r "-")%bool then Some d else None
  | None => None
  end.

(** [s.match(/slot-(\d+)-/)]: capture group 1 of the leftmost match. *)
Fixpoint match_slot (s : string) : option string :=
  match match_slot_anchored s with
  | Some d => Some d
  | None =>
      match s with
      | EmptyString => None
      | String _ s' => match_slot s'
      end
  end.

(** ** Data of the application *)

(** An entry of a bucket listing (only the name is used). *)
Record FileObject := { fo_name : string }.

(** The signed-in user of the auth context. *)
Record User := { user_id : string }.

(** A browser [File] picked in a cell. *)
Record File := { file_name : string; file_type : string; file_size : N }.

(** An error value of the storage client, or any value thrown by it; an
    absent [message] is the empty string (both are falsy). *)
Record StorageError := { message : string }.

(** What [upload] resolves to on success. *)
Record UploadData := { path : string }.

(** The [{ data, error }] pair every storage call resolves to. *)
Record Response (D : Type) := { data : option D; error : option StorageError }.
Arguments data {D} _.
Arguments error {D} _.

(** A promise settles: it is fulfilled with a value or rejected (the
    [await] throws). *)
Inductive Settled (X : Type) : Type :=
| Fulfilled (x : X)
| Rejected (reason : StorageError).
Arguments Fulfilled {X} _.
Arguments Rejected {X} _.

(** Calls to the remote object store, all on the bucket
    [nine-picture-grid-images]. *)
Inductive Call : Type :=
| storage_list
| storage_upload (fileName : string) (file : File)
| storage_remove (fileNames : list string).

Definition Payload (c : Call) : Type :=
  match c with
  | storage_list => list FileObject
  | storage_upload _ _ => UploadData
  | storage_remove _ => list FileObject
  end.

Inductive LogType : Type := error_t | warning_t | info_t.

(** Effects visible outside the running handler: notifications, the debug
    bus, the console, the callbacks of the grid's props and the state
    setters of the page.  The [details] payload of a debug event is not
    modelled. *)
Inductive Effect : Type :=
| toast (title description : string) (destructive : bool)
| emitDebugEvent (type : LogType) (msg : string)
| console_error (label : string)
| onStartUpload (index : nat)
| onFinishUpload (index : nat)
| onImagesChange (newImages : list (option string))
| setImages (newImages : list (option string))
| setIsLoading (b : bool).

(** A handler: effects in program order, suspended at each [await] of a
    storage call until the call settles. *)
Inductive proc : Type :=
| Done
| Do (e : Effect) (k : proc)
| Await (c : Call) (k : Settled (Response (Payload c)) -> proc).

Declare Scope proc_scope.
Delimit Scope proc_scope with proc.
Bind Scope proc_scope with proc.
Notation "e >>> k" := (Do e k) (at level 100, k at level 200, right associativity) : proc_scope.

(** [if (cb) cb(index)] for an optional callback prop. *)
Definition when_provided (provided : bool) (e : Effect) (k : proc) : proc :=
  if provided then Do e k else k.

(** The state hooks of the page ([Index]). *)
Record PageState := {
  images : list (option string);
  text : string;
  isLoading : bool;
  uploadingSlots : list nat
}.

Definition with_images (a : list (option string)) (st : PageState) : PageState :=
  {| images := a; text := text st; isLoading := isLoading st;
     uploadingSlots := uploadingSlots st |}.

Definition with_isLoading (b : bool) (st : PageState) : PageState :=
  {| images := images st; text := text st; isLoading := b;
     uploadingSlots := uploadingSlots st |}.

Definition with_uploadingSlots (u : list nat) (st : PageState) : PageState :=
  {| images := images st; text := text st; isLoading := isLoading st;
     uploadingSlots := u |}.

Definition with_text (t : string) (st : PageState) : PageState :=
  {| images := images st; text := t; isLoading := isLoading st;
     uploadingSlots := uploadingSlots st |}.

(** [useState(Array(9).fill(null))], [useState('')], [useState(true)],
    [useState([])]. *)
Definition initialState : PageState :=
  {| images := replicate 9 None; text := EmptyString; isLoading := true;
     uploadingSlots := [] |}.

(** The props the page passes to [ImageGrid]. *)
Record ImageGridProps := {
  p_images : list (option string);
  p_onStartUpload : bool;   (* is the optional callback provided? *)
  p_onFinishUpload : bool;
  p_userId : option string
}.

Section Grid.

(** [supabase.storage.from('nine-picture-grid-images').getPublicUrl(name)
    .data.publicUrl]: synchronous, computed by the storage client from
    the object name. *)
Variable getPublicUrl : string -> string.

(** ** The page: loading the slots from the store *)

(** The body shared by the two branches of the loop once the name has
    matched: [parseInt(match[1]) - 1], the range test and the write. *)
Definition place (newImages : list (option string)) (name m1 : string)
  : list (option string) :=
  let slotIndex := (JS.parseInt m1 - 1)%Z in
  if ((0 <=? slotIndex)%Z && (slotIndex <? 9)%Z)%bool
  then JS.array_set newImages (Z.to_nat slotIndex) (Some (getPublicUrl name))
  else newImages.

(** One iteration of [for (const file of files)]. *)
Definition process_file (user : option User) (userPrefix : string)
    (newImages : list (option string)) (file : FileObject)
  : list (option string) :=
  if (bool_decide (is_Some user) && JS.startsWith (fo_name file) userPrefix)%bool
  then
    match match_slot (fo_name file) with
    | Some m1 => if JS.truthy m1 then place newImages (fo_name file) m1 else newImages
    | None => newImages
    end
  else if (negb (JS.truthy userPrefix)
           && bool_decide (is_Some (match_slot_anchored (fo_name file))))%bool
  then
    match match_slot_anchored (fo_name file) with
    | Some m1 => if JS.truthy m1 then place newImages (fo_name file) m1 else newImages
    | None => newImages
    end
  else newImages.

(** [user ? `user-${user.id}` : ''] *)
Definition userPrefix_of (user : option User) : string :=
  match user with
  | Some u => "user-" +:+ user_id u
  | None => EmptyString
  end.

(** The array built by the loop, from [Array(9).fill(null)]. *)
Definition reconcile (user : option User) (files : list FileObject)
  : list (option string) :=
  fold_left (process_file user (userPrefix_of user)) files (replicate 9 None).

Definition or_else (s fallback : string) : string :=
  if JS.truthy s then s else fallback.

Definition load_finally : proc := (setIsLoading false >>> Done)%proc.

Definition load_catch (e : StorageError) : proc :=
  (console_error "Error loading images:" >>>
   emitDebugEvent error_t "Failed to load images from storage" >>>
   toast "Failed to load images"
         (or_else (message e) "There was an error loading your images from storage.")
         true >>>
   load_finally)%proc.

(** The effect run when [user] or [isAuthLoading] changes, and on mount. *)
Definition loadImagesFromSupabase (user : option User) (isAuthLoading : bool) : proc :=
  if (negb (bool_decide (is_Some user)) && negb isAuthLoading)%bool
  then (setImages (replicate 9 None) >>> setIsLoading false >>> Done)%proc
  else if isAuthLoading
  then Done
  else
    (setIsLoading true >>>
     Await storage_list (fun r =>
       match r with
       | Rejected e => load_catch e
       | Fulfilled res =>
           match error res with
           | Some e => load_catch e
           | None =>
               emitDebugEvent info_t "Files loaded from storage" >>>
               match data res with
               | Some files =>
                   if (0 <? length files)%nat
                   then setImages (reconcile user files) >>> load_finally
                   else load_finally
               | None => load_finally
               end
           end
       end))%proc.

(** ** The cell: validation of the picked file *)

(** [(size/1024/1024).toFixed(2)]: the quotient by 2^20 is exact in a
    double, and [toFixed] rounds it to the nearest hundredth, upwards on
    a tie. *)
Definition megabytes_toFixed2 (size : N) : string :=
  let n := ((200 * size + 1048576) / 2097152)%N in
  let frac := (n mod 100)%N in
  JS.show (n / 100)%N +:+ "." +:+
  (if (frac <? 10)%N then "0" else EmptyString) +:+ JS.show frac.

Definition slot_label (index : nat) : string := JS.show (N.of_nat index + 1).

Definition handleFileChange (index : nat)
    (onImageChange : nat -> option File -> proc) (file : option File) : proc :=
  match file with
  | Some f =>
      if negb (JS.startsWith (file_type f) "image/")
      then
        let errorMessage := "Invalid file type - please select an image file" in
        (toast "Invalid file type" errorMessage true >>>
         emitDebugEvent error_t errorMessage >>> Done)%proc
      else if (5 * 1024 * 1024 <? file_size f)%N
      then
        let errorMessage :=
          "File too large (" +:+ megabytes_toFixed2 (file_size f) +:+ "MB) - limit is 5MB" in
        (toast "File too large" errorMessage true >>>
         emitDebugEvent error_t errorMessage >>> Done)%proc
      else
        (emitDebugEvent info_t ("File selected for upload in slot " +:+ slot_label index) >>>
         onImageChange index (Some f))%proc
  | None => Done
  end.

(** ** The grid: upload and removal *)

Definition upload_finally (props : ImageGridProps) (index : nat) : proc :=
  when_provided (p_onFinishUpload props) (onFinishUpload index) Done.

Definition upload_catch (props : ImageGridProps) (index : nat) (e : StorageError) : proc :=
  (console_error "Error uploading file:" >>>
   emitDebugEvent error_t "Error uploading file" >>>
   toast "Upload failed"
         (or_else (message e) "There was an error uploading your image. Please try again.")
         true >>>
   upload_finally props index)%proc.

(** Reading [data.path] when [data] is [null] throws. *)
Definition TypeError_null_path : StorageError :=
  {| message := "Cannot read properties of null (reading 'path')" |}.

Definition upload_name (userId : option string) (index : nat) (now : N) : string :=
  match userId with
  | Some u =>
      if JS.truthy u
      then "user-" +:+ u +:+ "-slot-" +:+ slot_label index +:+ "-" +:+ JS.show now
      else "slot-" +:+ slot_label index +:+ "-" +:+ JS.show now
  | None => "slot-" +:+ slot_label index +:+ "-" +:+ JS.show now
  end.

(** The tail of the removal branch: [newImages[index] = null;
    onImagesChange(newImages)]. *)
Definition clear_slot (newImages : list (option string)) (index : nat) : proc :=
  (onImagesChange (JS.array_set newImages index None) >>> Done)%proc.

(** [now] is the value of [Date.now()] when the handler is called. *)
Definition handleImageChange (props : ImageGridProps) (now : N)
    (index : nat) (file : option File) : proc :=
  let newImages := p_images props in
  match file with
  | Some f =>
      let fileName := upload_name (p_userId props) index now in
      when_provided (p_onStartUpload props) (onStartUpload index)
        (emitDebugEvent info_t ("Starting upload to Supabase for slot " +:+ slot_label index) >>>
         Await (storage_upload fileName f) (fun r =>
           match r with
           | Rejected e => upload_catch props index e
           | Fulfilled res =>
               match error res with
               | Some e =>
                   emitDebugEvent error_t ("Supabase upload failed for slot " +:+ slot_label index) >>>
                   upload_catch props index e
               | None =>
                   emitDebugEvent info_t ("Upload successful for slot " +:+ slot_label index) >>>
                   match data res with
                   | Some d =>
                       let publicUrl := getPublicUrl (path d) in
                       onImagesChange (JS.array_set newImages index (Some publicUrl)) >>>
                       emitDebugEvent info_t ("Public URL obtained for slot " +:+ slot_label index) >>>
                       upload_finally props index
                   | None => upload_catch props index TypeError_null_path
                   end
               end
           end))%proc
  | None =>
      let currentImageUrl := JS.array_get (p_images props) index in
      if JS.truthy_opt currentImageUrl
      then
        let urlParts := JS.split_slash (default EmptyString currentImageUrl) in
        let fileName := default EmptyString (last urlParts) in
        (emitDebugEvent info_t ("Removing image from slot " +:+ slot_label index) >>>
         Await (storage_remove [fileName]) (fun r =>
           match r with
           | Rejected e =>
               console_error "Error removing file:" >>>
               emitDebugEvent error_t "Exception when removing file" >>>
               clear_slot newImages index
           | Fulfilled res =>
               match error res with
               | Some e =>
                   console_error "Error removing file:" >>>
                   emitDebugEvent error_t "Error removing file" >>>
                   clear_slot newImages index
               | None =>
                   emitDebugEvent info_t ("Successfully removed image from slot " +:+ slot_label index) >>>
                   clear_slot newImages index
               end
           end))%proc
      else clear_slot newImages index
  end.

(** ** The page: callbacks handed to the grid *)

Definition handleImagesChange (newImages : list (option string)) (st : PageState) : PageState :=
  with_images newImages st.

Definition handleStartImageUpload (index : nat) (st : PageState) : PageState :=
  with_uploadingSlots (uploadingSlots st ++ [index]) st.

Definition handleFinishImageUpload (index : nat) (st : PageState) : PageState :=
  with_uploadingSlots (filter (fun slot => slot <> index) (uploadingSlots st)) st.

(** [<ImageGrid images={images} onStartUpload={handleStartImageUpload}
    onFinishUpload={handleFinishImageUpload} userId={user?.id} ... />] *)
Definition gridProps (st : PageState) (user : option User) : ImageGridProps :=
  {| p_images := images st;
     p_onStartUpload := true;
     p_onFinishUpload := true;
     p_userId := user_id <$> user |}.

(** [isUploading={uploadingSlots.includes(index)}]: the busy flag of a
    cell. *)
Definition isUploading (st : PageState) (index : nat) : bool :=
  bool_decide (index ∈ uploadingSlots st).

(** What an effect does to the state of the page. *)
Definition perform (e : Effect) (st : PageState) : PageState :=
  match e with
  | onStartUpload index => handleStartImageUpload index st
  | onFinishUpload index => handleFinishImageUpload index st
  | onImagesChange newImages => handleImagesChange newImages st
  | setImages newImages => with_images newImages st
  | setIsLoading b => with_isLoading b st
  | toast _ _ _ | emitDebugEvent _ _ | console_error _ => st
  end.

End Grid.

(** ** Export: [JSON.stringify(dataToExport, null, 2)] *)

(** The JSON values the export can contain. *)
#[warnings="-register-all"] Inductive JSON : Type :=
| JNull
| JString (s : string)
| JArray (elems : list JSON)
| JObject (members : list (string * JSON)).

Module Json.

Definition LF : string := String "010"%char EmptyString.

Definition hex_digit (n : N) : ascii :=
  if (n <? 10)%N then ascii_of_N (48 + n) else ascii_of_N (87 + n).

(** [UnicodeEscape]: a backslash, [u] and four lower-case hexadecimal
    digits. *)
Definition UnicodeEscape (c : ascii) : string :=
  let n := N_of_ascii c in
  String "\" (String "u"
    (String (hex_digit ((n / 4096) mod 16)) (String (hex_digit ((n / 256) mod 16))
    (String (hex_digit ((n / 16) mod 16)) (String (hex_digit (n mod 16)) EmptyString))))).

(** One code unit of [QuoteJSONString]: the seven two-character escapes,
    [UnicodeEscape] for the other control characters, and the character
    itself otherwise. *)
Definition escape_char (c : ascii) : string :=
  if Ascii.eqb c "008" then "\b"
  else if Ascii.eqb c "009" then "\t"
  else if Ascii.eqb c "010" then "\n"
  else if Ascii.eqb c "012" then "\f"
  else if Ascii.eqb c "013" then "\r"
  else if Ascii.eqb c "034"%char then String "\" (String "034"%char EmptyString)
  else if Ascii.eqb c "\" then "\\"
  else if (N_of_ascii c <? 32)%N then UnicodeEscape c
  else String c EmptyString.

Fixpoint quote_body (s : string) : string :=
  match s with
  | EmptyString => EmptyString
  | String c s' => escape_char c +:+ quote_body s'
  end.

Definition QuoteJSONString (s : string) : string :=
  String "034"%char (quote_body s +:+ String "034"%char EmptyString).

(** The [gap] of [JSON.stringify(_, _, 2)]: two spaces. *)
Definition gap : string := "  ".

(** [SerializeJSONProperty] with [SerializeJSONArray] and
    [SerializeJSONObject] inlined; [indent] is the current indentation. *)
Fixpoint SerializeJSONProperty (indent : string) (v : JSON) : string :=
  match v with
  | JNull => "null"
  | JString s => QuoteJSONString s
  | JArray elems =>
      let stepback := indent in
      let indent := indent +:+ gap in
      match List.map (SerializeJSONProperty indent) elems with
      | [] => "[]"
      | partial =>
          let separator := "," +:+ LF +:+ indent in
          "[" +:+ LF +:+ indent +:+ String.concat separator partial
              +:+ LF +:+ stepback +:+ "]"
      end
  | JObject members =>
      let stepback := indent in
      let indent := indent +:+ gap in
      match List.map (fun kv : string * JSON =>
                        let '(k, v) := kv in
                        QuoteJSONString k +:+ ": " +:+ SerializeJSONProperty indent v)
                     members with
      | [] => "{}"
      | partial =>
          let separator := "," +:+ LF +:+ indent in
          "{" +:+ LF +:+ indent +:+ String.concat separator partial
              +:+ LF +:+ stepback +:+ "}"
      end
  end.

Definition stringify (v : JSON) : string := SerializeJSONProperty EmptyString v.

(** *** Reading a document back

    A parser for the JSON grammar restricted to [null], strings, arrays
    and objects (numbers and booleans never occur in an export). *)

Definition is_ws (c : ascii) : bool :=
  (Ascii.eqb c " " || Ascii.eqb c "009" || Ascii.eqb c "010" || Ascii.eqb c "013")%bool.

Fixpoint skip_ws (s : string) : string :=
  match s with
  | String c s' => if is_ws c then skip_ws s' else s
  | EmptyString => EmptyString
  end.

Definition hex_val (c : ascii) : option N :=
  let n := N_of_ascii c in
  if ((48 <=? n) && (n <=? 57))%N%bool then Some (n - 48)%N
  else if ((97 <=? n) && (n <=? 102))%N%bool then Some (n - 87)%N
  else if ((65 <=? n) && (n <=? 70))%N%bool then Some (n - 55)%N
  else None.

Definition push (c : ascii) (res : option (string * string)) : option (string * string) :=
  match res with
  | Some (v, rest) => Some (String c v, rest)
  | None => None
  end.

(** The characters of a string literal after its opening quote: the
    decoded string and what follows the closing quote. *)
Fixpoint parse_string_body (s : string) : option (string * string) :=
  match s with
  | EmptyString => None
  | String c r =>
      if Ascii.eqb c "034"%char then Some (EmptyString, r)
      else if Ascii.eqb c "\" then
        match r with
        | String e r' =>
            if Ascii.eqb e "034"%char then push "034"%char (parse_string_body r')
            else if Ascii.eqb e "\" then push "\" (parse_string_body r')
            else if Ascii.eqb e "/" then push "/" (parse_string_body r')
            else if Ascii.eqb e "b" then push "008" (parse_string_body r')
            else if Ascii.eqb e "f" then push "012" (parse_string_body r')
            else if Ascii.eqb e "n" then push "010" (parse_string_body r')
            else if Ascii.eqb e "r" then push "013" (parse_string_body r')
            else if Ascii.eqb e "t" then push "009" (parse_string_body r')
            else if Ascii.eqb e "u" then
              match r' with
              | String h1 (String h2 (String h3 (String h4 r''))) =>
                  match hex_val h1, hex_val h2, hex_val h3, hex_val h4 with
                  | Some d1, Some d2, Some d3, Some d4 =>
                      let n := (((d1 * 16 + d2) * 16 + d3) * 16 + d4)%N in
                      if (n <? 256)%N
                      then push (ascii_of_N n) (parse_string_body r'')
                      else None
                  | _, _, _, _ => None
                  end
              | _ => None
              end
            else None
        | EmptyString => None
        end
      else if (N_of_ascii c <? 32)%N then None
      else push c (parse_string_body r)
  end.

(** [parse_value], with the loops over array elements and object members;
    [fuel] bounds the number of nested calls. *)
Fixpoint parse_value (fuel : nat) (s : string) : option (JSON * string) :=
  match fuel with
  | O => None
  | S fuel' =>
      match skip_ws s with
      | String "n" (String "u" (String "l" (String "l" r))) => Some (JNull, r)
      | String "034"%char r =>
          '(v, r') ← parse_string_body r; Some (JString v, r')
      | String "[" r =>
          match skip_ws r with
          | String "]" r' => Some (JArray [], r')
          | _ => '(vs, r') ← parse_elements fuel' r; Some (JArray vs, r')
          end
      | String "{" r =>
          match skip_ws r with
          | String "}" r' => Some (JObject [], r')
          | _ => '(ms, r') ← parse_members fuel' r; Some (JObject ms, r')
          end
      | _ => None
      end
  end
with parse_elements (fuel : nat) (s : string) : option (list JSON * string) :=
  match fuel with
  | O => None
  | S fuel' =>
      '(v, r) ← parse_value fuel' s;
      match skip_ws r with
      | String "," r' => '(vs, r'') ← parse_elements fuel' r'; Some (v :: vs, r'')
      | String "]" r' => Some ([v], r')
      | _ => None
      end
  end
with parse_members (fuel : nat) (s : string) : option (list (string * JSON) * string) :=
  match fuel with
  | O => None
  | S fuel' =>
      match skip_ws s with
      | String "034"%char r =>
          '(k, r1) ← parse_string_body r;
          match skip_ws r1 with
          | String ":" r2 =>
              '(v, r3) ← parse_value fuel' r2;
              match skip_ws r3 with
              | String "," r4 => '(ms, r5) ← parse_members fuel' r4; Some ((k, v) :: ms, r5)
              | String "}" r4 => Some ([(k, v)], r4)
              | _ => None
              end
          | _ => None
          end
      | _ => None
      end
  end.

(** A whole document: one value, then only white space. *)
Definition parse (s : string) : option JSON :=
  '(v, r) ← parse_value (String.length s) s;
  match skip_ws r with
  | EmptyString => Some v
  | String _ _ => None
  end.

(** Pieces of an export: the line break and indentation before a member
    and before an array element, the separator between elements and the
    end of the array. *)
Definition lead2 : string := LF +:+ "  ".
Definition lead4 : string := LF +:+ "    ".
Definition sep4 : string := "," +:+ LF +:+ "    ".
Definition closing2 : string := LF +:+ "  " +:+ "]".

End Json.

Definition image_to_JSON (image : option string) : JSON :=
  match image with
  | Some url => JString url
  | None => JNull
  end.

(** [const dataToExport = { images, text }] *)
Definition dataToExport (st : PageState) : JSON :=
  JObject [("images"%string, JArray (List.map image_to_JSON (images st)));
           ("text"%string, JString (text st))].

(** Reading the state back from an exported value: an object with exactly
    the members [images] (an array of strings and [null]s) and [text] (a
    string), in this order. *)
Definition JSON_to_image (v : JSON) : option (option string) :=
  match v with
  | JNull => Some None
  | JString url => Some (Some url)
  | JArray _ | JObject _ => None
  end.

Definition read_export (v : JSON) : option (list (option string) * string) :=
  match v with
  | JObject [(k1, JArray elems); (k2, JString t)] =>
      if (String.eqb k1 "images" && String.eqb k2 "text")%bool
      then imgs ← mapM JSON_to_image elems; Some (imgs, t)
      else None
  | _ => None
  end.

(** The file handed to the browser: the blob and the [download] attribute
    of the link that is clicked. *)
Record Download := {
  blob_content : string;
  blob_type : string;
  download_name : string
}.

Definition handleDownload (st : PageState) : Download * list Effect :=
  let jsonString := Json.stringify (dataToExport st) in
  ({| blob_content := jsonString;
      blob_type := "application/json";
      download_name := "nine-picture-grid.json" |},
   [toast "Download started" "Your grid data is being downloaded" false]).

(** ** Running handlers *)

(** What an observer sees, in order: the effects performed and the calls
    issued to the store. *)
Inductive Event : Type :=
| performed (e : Effect)
| called (c : Call).

Record World := { page : PageState; trace : list Event }.

(** The remote store as seen by one handler: how each call settles. *)
Definition Store : Type := forall c : Call, Settled (Response (Payload c)).

(** Run a handler to completion against a store. *)
Fixpoint exec (store : Store) (p : proc) (w : World) : World :=
  match p with
  | Done => w
  | Do e k =>
      exec store k {| page := perform e (page w); trace := trace w ++ [performed e] |}
  | Await c k =>
      exec store (k (store c)) {| page := page w; trace := trace w ++ [called c] |}
  end.

Definition run (store : Store) (p : proc) (st : PageState) : World :=
  exec store p {| page := st; trace := [] |}.

Definition is_start (ev : Event) : bool :=
  match ev with performed (onStartUpload _) => true | _ => false end.

Definition is_finish (ev : Event) : bool :=
  match ev with performed (onFinishUpload _) => true | _ => false end.

Definition is_call (ev : Event) : bool :=
  match ev with called _ => true | _ => false end.

Definition is_toast (ev : Event) : bool :=
  match ev with performed (toast _ _ _) => true | _ => false end.

Definition is_images_change (ev : Event) : bool :=
  match ev with
  | performed (onImagesChange _) | performed (setImages _) => true
  | _ => false
  end.

Definition is_error_log (ev : Event) : bool :=
  match ev with performed (emitDebugEvent error_t _) => true | _ => false end.

(** ** The operations of the slot manager, as the page wires them *)

Section Operations.

Variable getPublicUrl : string -> string.

(** Picking a file in cell [index]: the cell's [handleFileChange] with
    [onImageChange={handleImageChange}]. *)
Definition AddImage (props : ImageGridProps) (now : N) (index : nat) (f : File) : proc :=
  handleFileChange index (handleImageChange getPublicUrl props now) (Some f).

(** The remove button of cell [index]: [onImageChange(index, null)]. *)
Definition RemoveImage (props : ImageGridProps) (now : N) (index : nat) : proc :=
  handleImageChange getPublicUrl props now index None.

(** The file passes the two checks of [handleFileChange]. *)
Definition valid_file (f : File) : bool :=
  (JS.startsWith (file_type f) "image/" && negb (5 * 1024 * 1024 <? file_size f)%N)%bool.

(** The uploaded object when the upload call resolved without error. *)
Definition uploaded (r : Settled (Response UploadData)) : option UploadData :=
  match r with
  | Fulfilled res =>
      match error res with
      | Some _ => None
      | None => data res
      end
  | Rejected _ => None
  end.

(** Did the removal call report an error or throw? *)
Definition remove_failed (r : Settled (Response (list FileObject))) : bool :=
  match r with
  | Fulfilled res => bool_decide (is_Some (error res))
  | Rejected _ => true
  end.

(** The slot the loader writes for a listed object, if any: the parsed
    number minus one when the name is eligible for [user] and the index
    is in range. *)
Definition slot_in_range (m1 : string) : option nat :=
  let slotIndex := (JS.parseInt m1 - 1)%Z in
  if ((0 <=? slotIndex)%Z && (slotIndex <? 9)%Z)%bool
  then Some (Z.to_nat slotIndex) else None.

Definition slot_target (user : option User) (file : FileObject) : option nat :=
  match user with
  | Some u =>
      if JS.startsWith (fo_name file) ("user-" +:+ user_id u)
      then match_slot (fo_name file) ≫= slot_in_range
      else None
  | None => match_slot_anchored (fo_name file) ≫= slot_in_range
  end.

(** ** The page as a transition system

    Handlers run up to their next [await] and are then suspended; any
    suspended call may settle at any time, in any order. *)

Record Suspended := {
  s_call : Call;
  s_resume : Settled (Response (Payload s_call)) -> proc
}.

Record System := {
  sys_page : PageState;
  sys_trace : list Event;
  sys_pending : list Suspended
}.

Definition initialSystem : System :=
  {| sys_page := initialState; sys_trace := []; sys_pending := [] |}.

(** Run [p] until it finishes or awaits. *)
Fixpoint advance (p : proc) (s : System) : System :=
  match p with
  | Done => s
  | Do e k =>
      advance k {| sys_page := perform e (sys_page s);
                   sys_trace := sys_trace s ++ [performed e];
                   sys_pending := sys_pending s |}
  | Await c k =>
      {| sys_page := sys_page s;
         sys_trace := sys_trace s ++ [called c];
         sys_pending := sys_pending s ++ [{| s_call := c; s_resume := k |}] |}
  end.

Inductive step : System -> System -> Prop :=
| step_auth (s : System) (user : option User) (isAuthLoading : bool) :
    (* the effect of the page re-runs the loader *)
    step s (advance (loadImagesFromSupabase getPublicUrl user isAuthLoading) s)
| step_add (s : System) (user : option User) (now : N) (index : nat) (file : option File) :
    (* the grid renders one cell per entry of [images] *)
    (index < length (images (sys_page s)))%nat ->
    step s (advance (handleFileChange index
                       (handleImageChange getPublicUrl (gridProps (sys_page s) user) now)
                       file) s)
| step_remove (s : System) (user : option User) (now : N) (index : nat) :
    (index < length (images (sys_page s)))%nat ->
    step s (advance (RemoveImage (gridProps (sys_page s) user) now index) s)
| step_text (s : System) (t : string) :
    (* the text editor calls [setText] *)
    step s {| sys_page := with_text t (sys_page s);
              sys_trace := sys_trace s;
              sys_pending := sys_pending s |}
| step_settle (s : System) (before after : list Suspended) (susp : Suspended)
    (r : Settled (Response (Payload (s_call susp)))) :
    sys_pending s = before ++ susp :: after ->
    step s (advance (s_resume susp r)
              {| sys_page := sys_page s;
                 sys_trace := sys_trace s;
                 sys_pending := before ++ after |}).

Definition reachable (s : System) : Prop := rtc step initialSystem s.

(** Every array a handler may still hand to the page has nine entries. *)
Fixpoint keeps_nine (p : proc) : Prop :=
  match p with
  | Done => True
  | Do e k =>
      match e with
      | onImagesChange a | setImages a => length a = 9%nat
      | _ => True
      end /\ keeps_nine k
  | Await c k => forall r, keeps_nine (k r)
  end.

(** The invariant of the transition system: the page holds nine slots
    and so will every array a suspended handler hands over later. *)
Definition nine_slots (s : System) : Prop :=
  length (images (sys_page s)) = 9%nat /\
  Forall (fun susp => forall r, keeps_nine (s_resume susp r)) (sys_pending s).

End Operations.

(** ** A concrete store for the scenarios *)

(** The public URL the storage client computes for an object of the bucket
    (project URL, storage path, bucket, object name). *)
Definition demoPublicUrl (name : string) : string :=
  "https://demo.supabase.co/storage/v1/object/public/nine-picture-grid-images/" +:+ name.

(** A store in which every call succeeds and the bucket lists [files]. *)
Definition store_listing (files : list FileObject) : Store :=
  fun c =>
    match c as c0 return Settled (Response (Payload c0)) with
    | storage_list => Fulfilled {| data := Some files; error := None |}
    | storage_upload fileName _ =>
        Fulfilled {| data := Some {| path := fileName |}; error := None |}
    | storage_remove _ => Fulfilled {| data := Some []; error := None |}
    end.

(** A store in which every call resolves with the error [e]. *)
Definition store_failing (e : StorageError) : Store :=
  fun c =>
    match c as c0 return Settled (Response (Payload c0)) with
    | storage_list => Fulfilled {| data := None; error := Some e |}
    | storage_upload _ _ => Fulfilled {| data := None; error := Some e |}
    | storage_remove _ => Fulfilled {| data := None; error := Some e |}
    end.

(** A store in which every call throws [e]. *)
Definition store_throwing (e : StorageError) : Store :=
  fun c => Rejected e.

Definition user42 : User := {| user_id := "42" |}.

Definition png_of_size (size : N) : File :=
  {| file_name := "photo.png"; file_type := "image/png"; file_size := size |}.

(** A page whose slot 3 holds an uploaded image of user 42. *)
Definition state_with_slot3 : PageState :=
  with_images (<[2%nat := Some (demoPublicUrl "user-42-slot-3-1000")]> (replicate 9 None))
              initialState.

Definition listing_slot3 : list FileObject := [ {| fo_name := "user-42-slot-3-1000" |} ].

(** The oldest suspended call settles as [store] answers it. *)
Definition settle_first (store : Store) (s : System) : System :=
  match sys_pending s with
  | [] => s
  | susp :: rest =>
      advance (s_resume susp (store (s_call susp)))
        {| sys_page := sys_page s; sys_trace := sys_trace s; sys_pending := rest |}
  end.

(** User 42 signs in and the listing arrives ... *)
Definition system_loaded : System :=
  settle_first (store_listing listing_slot3)
    (advance (loadImagesFromSupabase demoPublicUrl (Some user42) false) initialSystem).

(** ... the user picks a file for cell 5 ... *)
Definition system_uploading : System :=
  advance (handleFileChange 4
             (handleImageChange demoPublicUrl (gridProps (sys_page system_loaded) (Some user42)) 2000)
             (Some (png_of_size 1024)))
          system_loaded.

(** ... and the upload succeeds. *)
Definition system_uploaded : System :=
  settle_first (store_listing listing_slot3) system_uploading.

(** ** Names, listings and concurrent handlers *)

(** Does the character occur in the string? *)
Fixpoint occurs (c : ascii) (s : string) : bool :=
  match s with
  | EmptyString => false
  | String c' s' => (Ascii.eqb c c' || occurs c s')%bool
  end.

(** The slots a listing writes, in listing order. *)
Definition targets (user : option User) (files : list FileObject) : list nat :=
  omap (slot_target user) files.

Section Concurrent.

Variable getPublicUrl : string -> string.

(** The user picks the valid or invalid file [f] in cell [index]: the
    handler runs up to its [await] (the target of [step_add]). *)
Definition start_add (user : option User) (now : N) (index : nat) (f : File)
    (s : System) : System :=
  advance (handleFileChange index
             (handleImageChange getPublicUrl (gridProps (sys_page s) user) now)
             (Some f)) s.

End Concurrent.

(** Every start-upload notification a handler may still emit names one of
    the nine cells. *)
Fixpoint starts_in_grid (p : proc) : Prop :=
  match p with
  | Done => True
  | Do e k =>
      match e with
      | onStartUpload index => (index < 9)%nat
      | _ => True
      end /\ starts_in_grid k
  | Await c k => forall r, starts_in_grid (k r)
  end.

(** The busy list names cells only, now and after any suspended handler
    resumes. *)
Definition busy_in_grid (s : System) : Prop :=
  Forall (fun index => (index < 9)%nat) (uploadingSlots (sys_page s)) /\
  Forall (fun susp => forall r, starts_in_grid (s_resume susp r)) (sys_pending s).

(** ** The debug panel ([DebugPanel]) *)

(** A log entry; the [details] payload is not modelled.  The identifier is
    [Date.now().toString()]; the two clock reads of one [addLog] are taken
    at the same instant. *)
Record LogEntry := {
  log_id : string;
  log_timestamp : N;
  log_type : LogType;
  log_message : string
}.

(** [setLogs(prevLogs => [{...}, ...prevLogs])] *)
Definition addLog (now : N) (type : LogType) (msg : string)
    (prevLogs : list LogEntry) : list LogEntry :=
  {| log_id := JS.show now; log_timestamp := now; log_type := type; log_message := msg |}
  :: prevLogs.

(** The [detail] of an [app-debug] event; [type] may be missing. *)
Record Detail := { d_type : option LogType; d_message : string }.

(** [handleDebugEvent]: an event without detail is ignored, a missing type
    is logged as [info]. *)
Definition handleDebugEvent (now : N) (detail : option Detail)
    (logs : list LogEntry) : list LogEntry :=
  match detail with
  | Some d => addLog now (default info_t (d_type d)) (d_message d) logs
  | None => logs
  end.

(** [clearLogs]: [setLogs([])] and then [addLog('info', 'Logs cleared')]. *)
Definition clearLogs (now : N) (logs : list LogEntry) : list LogEntry :=
  addLog now info_t "Logs cleared" [].

(** The detail the application's emitters attach to an effect, if the
    effect is a debug event. *)
Definition detail_of (ev : Event) : option Detail :=
  match ev with
  | performed (emitDebugEvent type msg) => Some {| d_type := Some type; d_message := msg |}
  | _ => None
  end.

Inductive BucketStatus : Type :=
| status_checking
| status_exists
| status_not_exists
| status_error.

Record Bucket := { bucket_name : string }.

(** What one run of [checkBucket] does: the status it sets (if any), the
    entries it logs, oldest first, and whether it called [list] on the
    bucket. *)
Record CheckOutcome := {
  co_status : option BucketStatus;
  co_logs : list (LogType * string);
  co_listed : bool
}.

(** The bucket name between double quotes, as the log messages show it. *)
Definition quoted_bucket : string :=
  String "034"%char ("nine-picture-grid-images" +:+ String "034"%char EmptyString).

(** [checkBucket], given how [listBuckets()] settles and how [list()]
    settles when it is called.  Reading [data.some] on a [null] [data]
    throws and is caught by the outer [catch]. *)
Definition checkBucket (buckets : Settled (Response (list Bucket)))
    (files : Settled (Response (list FileObject))) : CheckOutcome :=
  match buckets with
  | Rejected _ =>
      {| co_status := Some status_error;
         co_logs := [(error_t, "Exception when checking bucket existence"%string)];
         co_listed := false |}
  | Fulfilled res =>
      match error res with
      | Some _ =>
          {| co_status := Some status_error;
             co_logs := [(error_t, "Failed to list storage buckets"%string)];
             co_listed := false |}
      | None =>
          match data res with
          | None =>
              {| co_status := Some status_error;
                 co_logs := [(error_t, "Exception when checking bucket existence"%string)];
                 co_listed := false |}
          | Some bs =>
              let bucketExists :=
                existsb (fun bucket => String.eqb (bucket_name bucket) "nine-picture-grid-images") bs in
              if bucketExists
              then
                let first := (info_t, "Storage bucket " +:+ quoted_bucket +:+ " exists") in
                match files with
                | Rejected _ =>
                    {| co_status := Some status_exists;
                       co_logs := [first; (error_t, "Exception when checking bucket permissions"%string)];
                       co_listed := true |}
                | Fulfilled fres =>
                    match error fres with
                    | Some _ =>
                        {| co_status := Some status_exists;
                           co_logs := [first;
                             (error_t, "Cannot list files in bucket - possible RLS policy issue"%string)];
                           co_listed := true |}
                    | None =>
                        let n := match data fres with Some fs => length fs | None => 0%nat end in
                        {| co_status := Some status_exists;
                           co_logs := [first;
                             (info_t, "Successfully listed " +:+ JS.show (N.of_nat n)
                                        +:+ " files in bucket")];
                           co_listed := true |}
                    end
                end
              else
                {| co_status := Some status_not_exists;
                   co_logs := [(warning_t,
                       "Storage bucket " +:+ quoted_bucket +:+ " does not exist")];
                   co_listed := false |}
          end
      end
  end.

(** The [app-debug] listeners of [window], each named by the number of the
    effect run that created its closure. *)
Record PanelState := {
  logs : list LogEntry;
  listeners : list nat;
  effect_runs : nat
}.

Definition initialPanel : PanelState :=
  {| logs := []; listeners := []; effect_runs := 0 |}.

(** [window.addEventListener('app-debug', listener)]: a listener that is
    already registered is not added again. *)
Definition addEventListener (listener : nat) (registered : list nat) : list nat :=
  if decide (listener ∈ registered) then registered else registered ++ [listener].

(** The synchronous part of one run of the panel's effect: the two initial
    entries and the registration of a fresh [handleDebugEvent]. *)
Definition panel_effect (now : N) (st : PanelState) : PanelState :=
  {| logs := addLog now info_t "Checking Supabase storage configuration..."
               (addLog now info_t "Debug panel initialized" (logs st));
     listeners := addEventListener (effect_runs st) (listeners st);
     effect_runs := S (effect_runs st) |}.

(** The cleanup returned by the last run: it calls [addEventListener] with
    the closure of that run. *)
Definition panel_cleanup (st : PanelState) : PanelState :=
  {| logs := logs st;
     listeners := addEventListener (pred (effect_runs st)) (listeners st);
     effect_runs := effect_runs st |}.

(** [bucketStatus] changed: the cleanup of the last run, then the effect
    again. *)
Definition panel_rerun (now : N) (st : PanelState) : PanelState :=
  panel_effect now (panel_cleanup st).

(** The panel after it was mounted at [now0] and the effect re-ran at each
    of the instants [nows]. *)
Definition panel_after (now0 : N) (nows : list N) : PanelState :=
  fold_left (fun st now => panel_rerun now st) nows (panel_effect now0 initialPanel).

(** [window.dispatchEvent(event)]: every registered listener handles the
    event, in registration order; [clock k] is the instant at which
    listener [k] reads [Date.now()]. *)
Definition dispatch_debug (clock : nat -> N) (detail : option Detail)
    (st : PanelState) : PanelState :=
  {| logs := fold_left (fun l k => handleDebugEvent (clock k) detail l)
                       (listeners st) (logs st);
     listeners := listeners st;
     effect_runs := effect_runs st |}.

(** * Properties *)

Section Facts.

Variable getPublicUrl : string -> string.

(** ** The loader *)

Lemma array_set_in_range {A} (a : list (option A)) i v :
  (i < length a)%nat -> JS.array_set a i v = <[i := v]> a.
Proof. intros H. unfold JS.array_set. by rewrite decide_True. Qed.

Lemma slot_in_range_lt m1 i : slot_in_range m1 = Some i -> (i < 9)%nat.
Proof.
  unfold slot_in_range.
  destruct (_ && _)%bool eqn:E; [|done].
  intros [= <-]. apply andb_true_iff in E as [H1 H2]. lia.
Qed.

Lemma slot_in_range_spec m1 i :
  slot_in_range m1 = Some i <-> Z.of_nat i = (JS.parseInt m1 - 1)%Z /\ (i < 9)%nat.
Proof.
  unfold slot_in_range. split.
  - destruct (_ && _)%bool eqn:E; [|done].
    intros [= <-]. apply andb_true_iff in E as [H1 H2]. lia.
  - intros [H1 H2]. rewrite <- H1.
    replace ((0 <=? Z.of_nat i)%Z && (Z.of_nat i <? 9)%Z)%bool with true.
    + by rewrite Nat2Z.id.
    + symmetry. apply andb_true_iff. lia.
Qed.

Lemma slot_target_lt user file i : slot_target user file = Some i -> (i < 9)%nat.
Proof.
  unfold slot_target. destruct user as [u|].
  - destruct (JS.startsWith _ _); [|done].
    destruct (match_slot _) as [m1|]; [|done]. apply slot_in_range_lt.
  - destruct (match_slot_anchored _) as [m1|]; [|done]. apply slot_in_range_lt.
Qed.

Lemma place_slot_in_range acc name m1 :
  place getPublicUrl acc name m1 =
  match slot_in_range m1 with
  | Some i => JS.array_set acc i (Some (getPublicUrl name))
  | None => acc
  end.
Proof. unfold place, slot_in_range. by destruct (_ && _)%bool. Qed.

(** One iteration of the loop writes the URL of the object at its target
    slot, or does nothing. *)
Lemma process_file_target user acc file :
  process_file getPublicUrl user (userPrefix_of user) acc file =
  match slot_target user file with
  | Some i => JS.array_set acc i (Some (getPublicUrl (fo_name file)))
  | None => acc
  end.
Proof.
  unfold process_file, slot_target. destruct user as [u|]; simpl.
  - destruct (JS.startsWith _ _); simpl; [|done].
    destruct (match_slot _) as [[|c m1]|]; simpl; try done.
    apply place_slot_in_range.
  - destruct (match_slot_anchored _) as [[|c m1]|]; simpl; try done.
    apply place_slot_in_range.
Qed.

Abbreviation loop user := (fold_left (process_file getPublicUrl user (userPrefix_of user))).

Lemma loop_length user files acc :
  length acc = 9%nat -> length (loop user files acc) = 9%nat.
Proof.
  revert acc. induction files as [|f files IH]; intros acc Hacc; simpl; [done|].
  apply IH. rewrite process_file_target.
  destruct (slot_target user f) as [i|] eqn:E; [|done].
  apply slot_target_lt in E.
  rewrite array_set_in_range by lia. by rewrite length_insert.
Qed.

Lemma loop_untouched user files acc i :
  length acc = 9%nat ->
  (forall f, f ∈ files -> slot_target user f <> Some i) ->
  loop user files acc !! i = acc !! i.
Proof.
  revert acc. induction files as [|f files IH]; intros acc Hacc Hno; simpl; [done|].
  rewrite IH.
  - rewrite process_file_target.
    destruct (slot_target user f) as [j|] eqn:E; [|done].
    pose proof (slot_target_lt _ _ _ E).
    rewrite array_set_in_range by lia.
    apply list_lookup_insert_ne. intros ->. eapply Hno; [|done]. left.
  - rewrite process_file_target.
    destruct (slot_target user f) as [j|] eqn:E; [|done].
    pose proof (slot_target_lt _ _ _ E).
    rewrite array_set_in_range by lia. by rewrite length_insert.
  - intros f' Hf'. apply Hno. by right.
Qed.

Lemma loop_source user files acc i url :
  length acc = 9%nat ->
  loop user files acc !! i = Some (Some url) ->
  acc !! i = Some (Some url) \/
  exists f, f ∈ files /\ slot_target user f = Some i /\ url = getPublicUrl (fo_name f).
Proof.
  revert acc. induction files as [|f files IH]; intros acc Hacc H; simpl in *; [by left|].
  rewrite process_file_target in H.
  destruct (slot_target user f) as [j|] eqn:E.
  - pose proof (slot_target_lt _ _ _ E).
    rewrite array_set_in_range in H by lia.
    destruct (IH (<[j:=Some (getPublicUrl (fo_name f))]> acc)) as [H'|(f' & Hin & Ht & Hu)];
      [by rewrite length_insert|done| |].
    + clear H. rename H' into H. destruct (decide (j = i)) as [->|Hne].
      * rewrite list_lookup_insert_eq in H by lia.
        injection H as <-.
        right. exists f. split; [left|done].
      * rewrite list_lookup_insert_ne in H by done. by left.
    + right. exists f'. split; [by right|done].
  - destruct (IH acc Hacc H) as [H'|(f' & Hin & Ht & Hu)]; [by left|].
    right. exists f'. split; [by right|done].
Qed.

Lemma loop_last_wins user before b after acc i :
  length acc = 9%nat ->
  slot_target user b = Some i ->
  (forall f, f ∈ after -> slot_target user f <> Some i) ->
  loop user (before ++ b :: after) acc !! i = Some (Some (getPublicUrl (fo_name b))).
Proof.
  intros Hacc Hb Hafter.
  rewrite fold_left_app. simpl.
  pose proof (slot_target_lt _ _ _ Hb).
  assert (length (loop user before acc) = 9%nat) as Hlen by by apply loop_length.
  rewrite loop_untouched; [| |done].
  - rewrite process_file_target, Hb, array_set_in_range by lia.
    apply list_lookup_insert_eq. lia.
  - rewrite process_file_target, Hb, array_set_in_range by lia.
    by rewrite length_insert.
Qed.

Lemma slot_target_user u file i :
  slot_target (Some u) file = Some i <->
  JS.startsWith (fo_name file) ("user-" +:+ user_id u) = true /\
  exists m1, match_slot (fo_name file) = Some m1 /\
             Z.of_nat i = (JS.parseInt m1 - 1)%Z /\ (i < 9)%nat.
Proof.
  unfold slot_target. destruct (JS.startsWith _ _); split.
  - destruct (match_slot _) as [m1|]; [|done]. simpl.
    intros H%slot_in_range_spec. eauto.
  - intros [_ (m1 & -> & H)]. simpl. by apply slot_in_range_spec.
  - done.
  - by intros [? _].
Qed.

(** The loader, when a user is signed in and the listing call resolved
    with [files]. *)
Lemma load_listing u files store st :
  store storage_list = Fulfilled {| data := Some files; error := None |} ->
  images (page (run store (loadImagesFromSupabase getPublicUrl (Some u) false) st)) =
  match files with
  | [] => images st
  | _ :: _ => reconcile getPublicUrl (Some u) files
  end.
Proof.
  intros Hs. unfold run, loadImagesFromSupabase. simpl. rewrite Hs. simpl.
  by destruct files.
Qed.

(** C1, for non-empty listings.  When a user is signed in and the store returned a
    listing, the image array of the page has exactly 9 entries after the
    loader ran (each [None] or a URL).  When the listing is not empty:
    every URL entry at index [i] is the public URL of a listed object whose
    name starts with [user-<id>] and whose first match of [slot-(\d+)-]
    parses to [i + 1]; an object whose parsed index is outside [0,9) is
    skipped (the result is that of the listing without it); and an entry
    with no matching object is [None]. *)
Theorem C1_reconcile_listing (u : User) (files : list FileObject)
    (store : Store) (st : PageState) :
  store storage_list = Fulfilled {| data := Some files; error := None |} ->
  length (images st) = 9%nat ->
  let imgs :=
    images (page (run store (loadImagesFromSupabase getPublicUrl (Some u) false) st)) in
  length imgs = 9%nat /\
  (files <> [] ->
     (forall i url, imgs !! i = Some (Some url) ->
        exists file m1,
          file ∈ files /\
          JS.startsWith (fo_name file) ("user-" +:+ user_id u) = true /\
          match_slot (fo_name file) = Some m1 /\
          Z.of_nat i = (JS.parseInt m1 - 1)%Z /\
          url = getPublicUrl (fo_name file)) /\
     (forall before file after m1,
        files = before ++ file :: after ->
        match_slot (fo_name file) = Some m1 ->
        ~ (0 <= JS.parseInt m1 - 1 < 9)%Z ->
        imgs = reconcile getPublicUrl (Some u) (before ++ after)) /\
     (forall i, (i < 9)%nat ->
        (forall file m1,
           file ∈ files ->
           JS.startsWith (fo_name file) ("user-" +:+ user_id u) = true ->
           match_slot (fo_name file) = Some m1 ->
           Z.of_nat i <> (JS.parseInt m1 - 1)%Z) ->
        imgs !! i = Some None)).
Proof.
  intros Hs Hst imgs. subst imgs. rewrite (load_listing _ _ _ _ Hs).
  split.
  - destruct files; [done|]. by apply loop_length.
  - intros Hne.
    assert (match files with
            | [] => images st
            | _ :: _ => reconcile getPublicUrl (Some u) files
            end = reconcile getPublicUrl (Some u) files) as ->
      by (destruct files; [congruence|reflexivity]).
    split; [|split].
    + intros i url Hi.
      destruct (loop_source (Some u) files (replicate 9 None) i url
                  eq_refl Hi) as [Hi'|(f & Hin & Ht & ->)].
      * apply lookup_replicate in Hi' as [? _]. done.
      * apply slot_target_user in Ht as (Hp & m1 & Hm & Hz & _).
        exists f, m1. done.
    + intros before file after m1 Hsplit Hm Hout.
      rewrite Hsplit. unfold reconcile. rewrite !fold_left_app. simpl.
      f_equal. rewrite process_file_target.
      destruct (slot_target (Some u) file) as [i|] eqn:Ht; [|done].
      apply slot_target_user in Ht as (_ & m1' & Hm' & Hz & Hlt).
      rewrite Hm in Hm'. injection Hm' as <-. lia.
    + intros i Hi Hnone. unfold reconcile. rewrite loop_untouched.
      * by apply lookup_replicate_2.
      * done.
      * intros f Hin Ht.
        apply slot_target_user in Ht as (Hp & m1 & Hm & Hz & _).
        by eapply Hnone.
Qed.

(** C8.  When two objects of the listing map to the same slot, the one
    processed last wins: the slot holds the public URL of the object that
    comes later in the order the store returned, whatever precedes it. *)
Theorem C8_last_processed_wins (u : User) (store : Store) (st : PageState)
    (before between after : list FileObject) (a b : FileObject) (i : nat) :
  store storage_list =
    Fulfilled {| data := Some (before ++ a :: between ++ b :: after); error := None |} ->
  slot_target (Some u) a = Some i ->
  slot_target (Some u) b = Some i ->
  (forall f, f ∈ after -> slot_target (Some u) f <> Some i) ->
  images (page (run store (loadImagesFromSupabase getPublicUrl (Some u) false) st)) !! i
  = Some (Some (getPublicUrl (fo_name b))).
Proof.
  intros Hs Ha Hb Hafter. rewrite (load_listing _ _ _ _ Hs).
  destruct (before ++ a :: between ++ b :: after) eqn:E.
  { by destruct before. }
  rewrite <- E. unfold reconcile.
  replace (before ++ a :: between ++ b :: after)
    with ((before ++ a :: between) ++ b :: after) by by rewrite <- app_assoc.
  apply loop_last_wins; [done|done|done].
Qed.

(** Without a signed-in user the loader never lists the bucket. *)
Lemma load_without_user (isAuthLoading : bool) (store : Store) (st : PageState) :
  let w := run store (loadImagesFromSupabase getPublicUrl None isAuthLoading) st in
  filter is_call (trace w) = [] /\
  images (page w) = if isAuthLoading then images st else replicate 9 None.
Proof. by destruct isAuthLoading. Qed.

(** ** The grid *)

Lemma not_uploading_after_finish index st :
  isUploading (handleFinishImageUpload index st) index = false.
Proof.
  unfold isUploading, handleFinishImageUpload. simpl.
  apply bool_decide_eq_false_2. intros [H _]%list_elem_of_filter. by apply H.
Qed.

Lemma valid_file_checks f :
  valid_file f = true ->
  JS.startsWith (file_type f) "image/" = true /\
  (5 * 1024 * 1024 <? file_size f)%N = false.
Proof.
  unfold valid_file. intros [H1 H2]%andb_true_iff.
  by apply negb_true_iff in H2.
Qed.

Lemma AddImage_valid props now index f :
  valid_file f = true ->
  AddImage getPublicUrl props now index f =
  Do (emitDebugEvent info_t ("File selected for upload in slot " +:+ slot_label index))
     (handleImageChange getPublicUrl props now index (Some f)).
Proof.
  intros [H1 H2]%valid_file_checks. unfold AddImage, handleFileChange.
  by rewrite H1, H2.
Qed.

Lemma AddImage_invalid props now index f :
  valid_file f = false ->
  exists errorMessage title,
    AddImage getPublicUrl props now index f =
    Do (toast title errorMessage true) (Do (emitDebugEvent error_t errorMessage) Done).
Proof.
  unfold valid_file, AddImage, handleFileChange. intros H.
  destruct (JS.startsWith (file_type f) "image/"); simpl in *.
  - apply negb_false_iff in H. rewrite H. eauto.
  - eauto.
Qed.

(** C3.  A file whose MIME type does not start with [image/], or whose
    size exceeds 5 MiB, is rejected by AddImage: the only effects are a
    destructive toast and an error on the debug bus; no call reaches the
    store, no start-upload notification is emitted and the state of the
    page (every slot) is unchanged. *)
Theorem C3_invalid_file_rejected (props : ImageGridProps) (now : N) (index : nat)
    (f : File) (store : Store) (st : PageState) :
  JS.startsWith (file_type f) "image/" = false \/ (5 * 1024 * 1024 < file_size f)%N ->
  let w := run store (AddImage getPublicUrl props now index f) st in
  (exists title description,
     trace w = [performed (toast title description true);
                performed (emitDebugEvent error_t description)]) /\
  filter is_call (trace w) = [] /\
  filter is_start (trace w) = [] /\
  page w = st.
Proof.
  intros H w.
  assert (valid_file f = false) as Hv.
  { unfold valid_file. destruct H as [->|H]; [done|].
    apply N.ltb_lt in H. rewrite H. apply andb_false_r. }
  destruct (AddImage_invalid props now index f Hv) as (msg & title & E).
  subst w. rewrite E. unfold run. simpl.
  split; [by exists title, msg|]. split; [done|]. split; [done|]. by destruct st.
Qed.

(** C4.  An AddImage that passes validation emits exactly one
    start-upload notification and exactly one finish-upload notification,
    both for its slot index; the finish is the last effect, however the
    upload call settles, and the slot is not busy afterwards. *)
Theorem C4_start_finish_paired (user : option User) (now : N) (index : nat)
    (f : File) (store : Store) (st : PageState) :
  valid_file f = true ->
  let w := run store (AddImage getPublicUrl (gridProps st user) now index f) st in
  filter is_start (trace w) = [performed (onStartUpload index)] /\
  filter is_finish (trace w) = [performed (onFinishUpload index)] /\
  last (trace w) = Some (performed (onFinishUpload index)) /\
  isUploading (page w) index = false.
Proof.
  intros Hv w. subst w. rewrite (AddImage_valid _ _ _ _ Hv).
  unfold run, handleImageChange. simpl.
  destruct (store _) as [[[d|] [e|]]|e]; simpl;
    (split; [done|]; split; [done|]; split; [done|]; apply not_uploading_after_finish).
Qed.

Lemma array_get_set_eq {A} (a : list (option A)) i v :
  JS.array_get (JS.array_set a i v) i = v.
Proof.
  unfold JS.array_get, JS.array_set. destruct (decide _) as [Hlt|Hge].
  - by rewrite list_lookup_insert_eq.
  - rewrite lookup_app_r by lia.
    rewrite lookup_app_r by (rewrite length_replicate; lia).
    rewrite length_replicate. by replace (i - length a - (i - length a))%nat with 0%nat by lia.
Qed.

Lemma array_get_set_ne {A} (a : list (option A)) i j v :
  j <> i -> JS.array_get (JS.array_set a i v) j = JS.array_get a j.
Proof.
  intros Hne. unfold JS.array_get, JS.array_set. destruct (decide _) as [Hlt|Hge].
  - by rewrite list_lookup_insert_ne.
  - destruct (decide (j < length a)%nat) as [Hj|Hj].
    + by rewrite lookup_app_l.
    + rewrite (lookup_ge_None_2 a j) by lia.
      rewrite lookup_app_r by lia.
      destruct (decide (j < i)%nat) as [Hji|Hji].
      * rewrite lookup_app_l by (rewrite length_replicate; lia).
        rewrite lookup_replicate_2 by lia. done.
      * rewrite lookup_ge_None_2; [done|].
        rewrite length_app, length_replicate. simpl. lia.
Qed.

Lemma array_set_length {A} (a : list (option A)) i v :
  (i < length a)%nat -> length (JS.array_set a i v) = length a.
Proof. intros H. rewrite array_set_in_range by done. apply length_insert. Qed.

Lemma split_slash_nonempty s : JS.split_slash s <> [].
Proof.
  destruct s as [|c s]; simpl; [done|].
  destruct (Ascii.eqb c "/"); [done|]. by destruct (JS.split_slash s).
Qed.

Lemma last_split_no_slash name :
  JS.contains_slash name = false -> JS.split_slash name = [name].
Proof.
  induction name as [|c name IH]; simpl; [done|].
  intros [Hc Hn]%orb_false_iff. rewrite Hc, (IH Hn). done.
Qed.

Lemma split_slash_app dir rest :
  JS.split_slash (dir +:+ "/" +:+ rest) = JS.split_slash dir ++ JS.split_slash rest.
Proof.
  induction dir as [|c dir IH]; [done|].
  change (String c dir +:+ "/" +:+ rest) with (String c (dir +:+ "/" +:+ rest)).
  simpl. rewrite IH. destruct (Ascii.eqb c "/"); [done|].
  pose proof (split_slash_nonempty dir). by destruct (JS.split_slash dir).
Qed.

(** The last segment of [dir/name] is [name]. *)
Lemma last_segment dir name :
  JS.contains_slash name = false ->
  last (JS.split_slash (dir +:+ "/" +:+ name)) = Some name.
Proof.
  intros Hn. rewrite split_slash_app, (last_split_no_slash _ Hn). apply last_snoc.
Qed.

Lemma RemoveImage_run props now index store st :
  images (page (run store (RemoveImage getPublicUrl props now index) st)) =
  JS.array_set (p_images props) index None.
Proof.
  unfold run, RemoveImage, handleImageChange.
  destruct (JS.truthy_opt _); simpl; [|done].
  by destruct (store _) as [[? [e|]]|e].
Qed.

(** C5.  RemoveImage always clears the slot to [None], however the
    removal call settles.  The object it removes is named by the last
    [/]-separated segment of the URL stored in the slot; a failure of the
    call is logged on the debug bus and never shown as a toast, and the
    grid receives the same array as on success. *)
Theorem C5_remove_always_clears (user : option User) (now : N) (index : nat)
    (store : Store) (st : PageState) :
  let w := run store (RemoveImage getPublicUrl (gridProps st user) now index) st in
  JS.array_get (images (page w)) index = None /\
  images (page w) = JS.array_set (images st) index None /\
  filter is_toast (trace w) = [] /\
  (forall url,
     images st !! index = Some (Some url) -> JS.truthy url = true ->
     let fileName := default EmptyString (last (JS.split_slash url)) in
     filter is_call (trace w) = [called (storage_remove [fileName])] /\
     (forall dir name,
        url = dir +:+ "/" +:+ name -> JS.contains_slash name = false ->
        fileName = name) /\
     (remove_failed (store (storage_remove [fileName])) = true ->
      exists msg, filter is_error_log (trace w) = [performed (emitDebugEvent error_t msg)])).
Proof.
  intros w. subst w.
  split; [|split; [|split]].
  - rewrite RemoveImage_run. apply array_get_set_eq.
  - apply RemoveImage_run.
  - unfold run, RemoveImage, handleImageChange.
    destruct (JS.truthy_opt _); simpl; [|done].
    by destruct (store _) as [[? [e|]]|e].
  - intros url Hurl Ht fileName.
    unfold run, RemoveImage, handleImageChange. simpl.
    unfold JS.array_get. rewrite Hurl. simpl. rewrite Ht. simpl.
    fold fileName.
    split; [|split].
    + by destruct (store _) as [[? [e|]]|e].
    + intros dir name -> Hn. unfold fileName. by rewrite last_segment.
    + destruct (store _) as [[? [e|]]|e]; simpl; intros H; try discriminate H; eauto.
Qed.

(** C6.  When the upload of an AddImage fails, no array is handed to the
    page (every slot keeps its value), one destructive toast
    "Upload failed" is shown and the slot is not busy afterwards. *)
Theorem C6_upload_error_keeps_slots (user : option User) (now : N) (index : nat)
    (f : File) (store : Store) (st : PageState) :
  valid_file f = true ->
  uploaded (store (storage_upload (upload_name (user_id <$> user) index now) f)) = None ->
  let w := run store (AddImage getPublicUrl (gridProps st user) now index f) st in
  images (page w) = images st /\
  filter is_images_change (trace w) = [] /\
  (exists description,
     filter is_toast (trace w) = [performed (toast "Upload failed" description true)]) /\
  isUploading (page w) index = false.
Proof.
  intros Hv Hup w. subst w. rewrite (AddImage_valid _ _ _ _ Hv).
  unfold run, handleImageChange. simpl.
  destruct (store _) as [[[d|] [e|]]|e]; simpl in *; try discriminate Hup;
    (split; [done|]; split; [done|]; split; [eauto|]; apply not_uploading_after_finish).
Qed.

(** C10.  After a successful AddImage the image array of the page is the
    array captured at the start (the grid's [images] prop) with position
    [index] set to the public URL: all other positions are unchanged, the
    length is unchanged when [index] is a position of the array, and the
    text is unchanged. *)
Theorem C10_successful_add_frame (props : ImageGridProps) (now : N) (index : nat)
    (f : File) (store : Store) (st : PageState) (d : UploadData) :
  valid_file f = true ->
  uploaded (store (storage_upload (upload_name (p_userId props) index now) f)) = Some d ->
  let w := run store (AddImage getPublicUrl props now index f) st in
  images (page w) = JS.array_set (p_images props) index (Some (getPublicUrl (path d))) /\
  (forall j, j <> index ->
     JS.array_get (images (page w)) j = JS.array_get (p_images props) j) /\
  JS.array_get (images (page w)) index = Some (getPublicUrl (path d)) /\
  ((index < length (p_images props))%nat ->
     length (images (page w)) = length (p_images props)) /\
  text (page w) = text st.
Proof.
  intros Hv Hup w.
  assert (images (page w) =
          JS.array_set (p_images props) index (Some (getPublicUrl (path d))) /\
          text (page w) = text st) as [Himg Htext].
  { subst w. rewrite (AddImage_valid _ _ _ _ Hv).
    unfold run, handleImageChange, upload_catch, upload_finally, when_provided.
    destruct (p_onStartUpload props), (p_onFinishUpload props); simpl;
      destruct (store _) as [[[d'|] [e|]]|e]; simpl in *;
        try discriminate Hup; injection Hup as ->.
    all: done. }
  rewrite Himg. split; [done|]. split; [|split; [|split]].
  - intros j Hj. by apply array_get_set_ne.
  - apply array_get_set_eq.
  - apply array_set_length.
  - done.
Qed.

(** ** Nine slots at all times *)

Lemma advance_nine p s :
  keeps_nine p -> nine_slots s -> nine_slots (advance p s).
Proof.
  revert s. induction p as [|e k IH|c k IH]; intros s Hp [Hlen Hpend]; simpl.
  - done.
  - destruct Hp as [He Hk]. apply IH; [done|]. split; simpl; [|done].
    by destruct e.
  - split; simpl; [done|]. apply Forall_app. split; [done|].
    by apply Forall_singleton.
Qed.

Lemma load_keeps_nine user isAuthLoading :
  keeps_nine (loadImagesFromSupabase getPublicUrl user isAuthLoading).
Proof.
  unfold loadImagesFromSupabase.
  destruct (_ && _)%bool; [done|]. destruct isAuthLoading; [done|].
  simpl. split; [done|]. intros [[files [e|]]|e]; simpl; try done.
  split; [done|]. destruct files as [files|]; [|done].
  destruct (0 <? length files)%nat; [|done].
  simpl. split; [|done]. by apply loop_length.
Qed.

Lemma handleImageChange_keeps_nine props now index file :
  length (p_images props) = 9%nat -> (index < 9)%nat ->
  keeps_nine (handleImageChange getPublicUrl props now index file).
Proof.
  intros Hlen Hindex.
  assert (forall v, length (JS.array_set (p_images props) index v) = 9%nat) as Hset.
  { intros v. rewrite array_set_length; [done|lia]. }
  unfold handleImageChange, upload_catch, upload_finally, when_provided, clear_slot.
  destruct file as [f|].
  - destruct (p_onStartUpload props), (p_onFinishUpload props); simpl;
      repeat split; try done; intros [[[d|] [e|]]|e]; simpl; repeat split; done.
  - destruct (JS.truthy_opt _); simpl; [|done].
    split; [done|]. intros [[d [e|]]|e]; simpl; repeat split; done.
Qed.

Lemma handleFileChange_keeps_nine index onImageChange file :
  (forall f, keeps_nine (onImageChange index (Some f))) ->
  keeps_nine (handleFileChange index onImageChange file).
Proof.
  intros Hk. unfold handleFileChange. destruct file as [f|]; [|done].
  destruct (negb _); [done|]. destruct (_ <? _)%N; [done|]. simpl. split; [done|]. apply Hk.
Qed.

Lemma step_nine s s' : step getPublicUrl s s' -> nine_slots s -> nine_slots s'.
Proof.
  intros Hstep Hinv. destruct Hstep as [s user l|s user now index file Hi|s user now index Hi|s t|s before after susp r Hp].
  - apply advance_nine; [apply load_keeps_nine|done].
  - destruct Hinv as [Hlen Hpend]. apply advance_nine; [|done].
    apply handleFileChange_keeps_nine. intros f.
    apply handleImageChange_keeps_nine; simpl; lia.
  - destruct Hinv as [Hlen Hpend]. apply advance_nine; [|done].
    apply handleImageChange_keeps_nine; simpl; lia.
  - done.
  - destruct Hinv as [Hlen Hpend]. rewrite Hp in Hpend.
    apply Forall_app in Hpend as [Hb Ha]. apply Forall_cons in Ha as [Hs Ha].
    apply advance_nine; [apply Hs|]. split; simpl; [done|].
    apply Forall_app. done.
Qed.

Lemma step_settle_first store s :
  sys_pending s <> [] -> step getPublicUrl s (settle_first store s).
Proof.
  intros Hne. unfold settle_first. destruct (sys_pending s) as [|susp rest] eqn:E; [done|].
  apply (step_settle getPublicUrl s [] rest susp (store (s_call susp)) E).
Qed.

(** C9.  The image array starts as nine [None] entries and has exactly
    nine entries in every reachable state of the page, whatever loads,
    additions and removals were started and in whatever order their
    storage calls settled. *)
Theorem C9_nine_slots_always :
  images initialState = replicate 9 None /\
  forall s : System, reachable getPublicUrl s -> length (images (sys_page s)) = 9%nat.
Proof.
  split; [done|]. intros s Hs.
  cut (nine_slots s); [by intros [? _]|].
  revert s Hs. apply (rtc_ind_r (fun s => nine_slots s)).
  - split; [done|]. constructor.
  - intros s1 s2 _ Hstep IH. by eapply step_nine.
Qed.

End Facts.

(** ** The export *)

Section JsonFacts.

Import Json.

Lemma app_String c s t : String c s +:+ t = String c (s +:+ t).
Proof. reflexivity. Qed.

Lemma app_empty t : EmptyString +:+ t = t.
Proof. reflexivity. Qed.

Lemma app_assoc_str a b c : (a +:+ b) +:+ c = a +:+ (b +:+ c).
Proof. induction a as [|x a IH]; [done|]. by rewrite !app_String, IH. Qed.

Lemma length_app_str a b : String.length (a +:+ b) = (String.length a + String.length b)%nat.
Proof. induction a as [|x a IH]; [done|]. rewrite app_String. simpl. by rewrite IH. Qed.

(** Reading an escaped character gives the character back. *)
Lemma parse_escape_char c body :
  parse_string_body (escape_char c +:+ body) = push c (parse_string_body body).
Proof. destruct c as [[] [] [] [] [] [] [] []]; reflexivity. Qed.

Lemma parse_quote_body s rest :
  parse_string_body (quote_body s +:+ String "034"%char rest) = Some (s, rest).
Proof.
  induction s as [|c s IH]; [done|].
  simpl. rewrite app_assoc_str, parse_escape_char, IH. done.
Qed.

Lemma parse_value_ws fuel c s :
  is_ws c = true -> parse_value fuel (String c s) = parse_value fuel s.
Proof. intros H. destruct fuel; [done|]. simpl. by rewrite H. Qed.

Lemma parse_value_string fuel s rest :
  parse_value (S fuel) (QuoteJSONString s +:+ rest) = Some (JString s, rest).
Proof.
  unfold QuoteJSONString. rewrite app_String, app_assoc_str, app_String, app_empty.
  simpl. by rewrite parse_quote_body.
Qed.

Lemma parse_value_null fuel rest :
  parse_value (S fuel) ("null" +:+ rest) = Some (JNull, rest).
Proof. reflexivity. Qed.

Lemma parse_value_image fuel indent image rest :
  parse_value (S fuel) (SerializeJSONProperty indent (image_to_JSON image) +:+ rest)
  = Some (image_to_JSON image, rest).
Proof.
  destruct image as [url|].
  - apply parse_value_string.
  - apply parse_value_null.
Qed.

Lemma concat_cons2 sep a b l :
  String.concat sep (a :: b :: l) = a +:+ sep +:+ String.concat sep (b :: l).
Proof. reflexivity. Qed.

Lemma parse_value_lead4 fuel s : parse_value fuel (lead4 +:+ s) = parse_value fuel s.
Proof.
  unfold lead4, LF. rewrite !app_String, app_empty, !app_String, app_empty.
  by rewrite !parse_value_ws.
Qed.

Lemma parse_elements_comma fuel s v r r' :
  parse_value fuel s = Some (v, r) ->
  skip_ws r = String "," r' ->
  parse_elements (S fuel) s =
  '(vs, r'') ← parse_elements fuel r'; Some (v :: vs, r'').
Proof. intros H1 H2. cbn [parse_elements]. rewrite H1. cbn. by rewrite H2. Qed.

Lemma parse_elements_close fuel s v r r' :
  parse_value fuel s = Some (v, r) ->
  skip_ws r = String "]" r' ->
  parse_elements (S fuel) s = Some ([v], r').
Proof. intros H1 H2. cbn [parse_elements]. rewrite H1. cbn. by rewrite H2. Qed.

Lemma parse_elements_images xs : forall x fuel rest,
  (length xs + 2 <= fuel)%nat ->
  parse_elements fuel
    (lead4 +:+ String.concat sep4
                 (List.map (SerializeJSONProperty "    ") (List.map image_to_JSON (x :: xs)))
           +:+ closing2 +:+ rest)
  = Some (List.map image_to_JSON (x :: xs), rest).
Proof.
  induction xs as [|y ys IH]; intros x fuel rest Hfuel;
    (destruct fuel as [|[|fuel]]; [simpl in Hfuel; lia..|]).
  - eapply parse_elements_close.
    + rewrite parse_value_lead4. apply parse_value_image.
    + reflexivity.
  - cbn [List.map]. rewrite concat_cons2, !app_assoc_str.
    erewrite parse_elements_comma.
    + cbn [List.map] in IH. rewrite IH; [done|]. simpl in Hfuel. lia.
    + rewrite parse_value_lead4. apply parse_value_image.
    + reflexivity.
Qed.

Lemma serialize_images_cons x xs :
  SerializeJSONProperty "  " (JArray (List.map image_to_JSON (x :: xs))) =
  "[" +:+ lead4 +:+
    String.concat sep4
      (List.map (SerializeJSONProperty "    ") (List.map image_to_JSON (x :: xs)))
    +:+ closing2.
Proof. reflexivity. Qed.

Lemma parse_value_open_bracket fuel r :
  parse_value (S fuel) (String "[" r) =
  match skip_ws r with
  | String "]" r' => Some (JArray [], r')
  | _ => '(vs, r') ← parse_elements fuel r; Some (JArray vs, r')
  end.
Proof. reflexivity. Qed.

Lemma skip_ws_first_image x l rest :
  exists c s,
    skip_ws (lead4 +:+ String.concat sep4
               (List.map (SerializeJSONProperty "    ") (List.map image_to_JSON (x :: l)))
             +:+ rest) = String c s /\ c <> "]"%char.
Proof.
  destruct x as [url|], l as [|y l]; cbn [List.map]; rewrite ?concat_cons2;
    eexists _, _; (split; [reflexivity|done]).
Qed.

Lemma parse_value_images fuel imgs rest :
  (length imgs + 3 <= fuel)%nat ->
  parse_value fuel
    (String " " (SerializeJSONProperty "  " (JArray (List.map image_to_JSON imgs)) +:+ rest))
  = Some (JArray (List.map image_to_JSON imgs), rest).
Proof.
  intros Hfuel. rewrite parse_value_ws by done.
  destruct fuel as [|fuel]; [lia|].
  destruct imgs as [|x xs]; [done|].
  rewrite serialize_images_cons, !app_assoc_str, app_String, app_empty.
  rewrite parse_value_open_bracket.
  destruct (skip_ws_first_image x xs (closing2 +:+ rest)) as (c & s & -> & Hc).
  rewrite parse_elements_images by (simpl in Hfuel; lia).
  destruct c as [[] [] [] [] [] [] [] []]; done.
Qed.

Lemma parse_members_entry fuel k X :
  parse_members (S fuel) (lead2 +:+ QuoteJSONString k +:+ ": " +:+ X) =
  '(v, r3) ← parse_value fuel (String " " X);
  match skip_ws r3 with
  | String "," r4 => '(ms, r5) ← parse_members fuel r4; Some ((k, v) :: ms, r5)
  | String "}" r4 => Some ([(k, v)], r4)
  | _ => None
  end.
Proof.
  change (lead2 +:+ QuoteJSONString k +:+ ": " +:+ X)
    with (String "010" (String " " (String " " (String "034"
            ((quote_body k +:+ String "034"%char EmptyString) +:+ ": " +:+ X))))).
  rewrite app_assoc_str.
  change (String "034"%char EmptyString +:+ ": " +:+ X) with (String "034"%char (String ":" (String " " X))).
  cbn [parse_members]. simpl skip_ws at 1. cbv iota. rewrite parse_quote_body. reflexivity.
Qed.

Lemma parse_value_open_brace fuel r c s :
  skip_ws r = String c s -> c <> "}"%char ->
  parse_value (S fuel) (String "{" r) =
  '(ms, r') ← parse_members fuel r; Some (JObject ms, r').
Proof.
  intros H Hc. cbn [parse_value]. simpl skip_ws at 1. cbv iota. rewrite H.
  destruct c as [[] [] [] [] [] [] [] []]; done.
Qed.

Lemma stringify_export st :
  stringify (dataToExport st) =
  String "{"
    (lead2 +:+ QuoteJSONString "images" +:+ ": " +:+
       SerializeJSONProperty "  " (JArray (List.map image_to_JSON (images st))) +:+
     "," +:+ lead2 +:+ QuoteJSONString "text" +:+ ": " +:+
       QuoteJSONString (text st) +:+ LF +:+ "}").
Proof.
  transitivity
    ("{" +:+ LF +:+ "  " +:+
       ((QuoteJSONString "images" +:+ ": " +:+
           SerializeJSONProperty "  " (JArray (List.map image_to_JSON (images st)))) +:+
        ("," +:+ LF +:+ "  ") +:+
        (QuoteJSONString "text" +:+ ": " +:+ QuoteJSONString (text st))) +:+
       LF +:+ EmptyString +:+ "}"); [reflexivity|].
  rewrite !app_assoc_str. reflexivity.
Qed.

Lemma parse_value_export fuel st :
  (length (images st) + 6 <= fuel)%nat ->
  parse_value fuel (stringify (dataToExport st)) = Some (dataToExport st, EmptyString).
Proof.
  intros Hfuel. destruct fuel as [|[|[|[|fuel]]]]; [lia..|].
  rewrite stringify_export.
  erewrite parse_value_open_brace; [|reflexivity|done].
  rewrite parse_members_entry.
  rewrite parse_value_images by lia.
  cbn [mbind option_bind]. simpl skip_ws at 1. cbv iota. rewrite app_empty.
  rewrite parse_members_entry.
  rewrite parse_value_ws by done. rewrite parse_value_string.
  reflexivity.
Qed.

Lemma length_concat_ge sep l :
  Forall (fun s => 1 <= String.length s)%nat l ->
  (length l <= String.length (String.concat sep l))%nat.
Proof.
  induction 1 as [|s l Hs Hl IH]; [done|].
  destruct l as [|s' l]; [simpl; lia|].
  rewrite concat_cons2, !length_app_str. simpl length in *. lia.
Qed.

Lemma length_serialize_images imgs :
  (length imgs <=
   String.length (SerializeJSONProperty "  " (JArray (List.map image_to_JSON imgs))))%nat.
Proof.
  destruct imgs as [|x xs]; [simpl; lia|].
  rewrite serialize_images_cons, !length_app_str.
  pose proof (length_concat_ge sep4
    (List.map (SerializeJSONProperty "    ") (List.map image_to_JSON (x :: xs)))) as H.
  rewrite !length_map in H.
  assert (1 <= String.length closing2)%nat by (simpl; lia).
  enough (length (x :: xs) <= String.length (String.concat sep4
    (List.map (SerializeJSONProperty "    ") (List.map image_to_JSON (x :: xs)))))%nat by lia.
  apply H. apply Forall_forall. intros s Hs.
  apply list_elem_of_In, in_map_iff in Hs as (j & <- & Hj).
  apply in_map_iff in Hj as ([u|] & <- & _); simpl; lia.
Qed.

Lemma length_stringify_export st :
  (length (images st) + 6 <= String.length (stringify (dataToExport st)))%nat.
Proof.
  rewrite stringify_export. cbn [String.length]. rewrite !length_app_str.
  pose proof (length_serialize_images (images st)).
  assert (1 <= String.length lead2)%nat by (simpl; lia).
  assert (2 <= String.length (QuoteJSONString "images"))%nat by (simpl; lia).
  assert (2 <= String.length ": ")%nat by (simpl; lia).
  lia.
Qed.

(** Reading an exported document gives the exported value back. *)
Lemma parse_stringify_export st :
  parse (stringify (dataToExport st)) = Some (dataToExport st).
Proof.
  unfold parse. rewrite parse_value_export by apply length_stringify_export. done.
Qed.

End JsonFacts.

Lemma mapM_JSON_to_image (imgs : list (option string)) :
  mapM JSON_to_image (List.map image_to_JSON imgs) = Some imgs.
Proof.
  induction imgs as [|[url|] imgs IH]; [done|..]; cbn; by rewrite IH.
Qed.

Lemma read_export_dataToExport (st : PageState) :
  read_export (dataToExport st) = Some (images st, text st).
Proof. unfold read_export, dataToExport. cbn. by rewrite mapM_JSON_to_image. Qed.

(** C7.  For every state of the page, the exported file is named
    [nine-picture-grid.json] and its content is a JSON document that reads
    back as an object with exactly the two members [images] and [text]:
    the [images] array has the length and the order of the in-memory image
    array (nine entries when the page holds nine), and the [text] member is
    the in-memory text, character for character. *)
Theorem C7_export_round_trips (st : PageState) :
  let file := (handleDownload st).1 in
  Json.parse (blob_content file) =
    Some (JObject [("images"%string, JArray (List.map image_to_JSON (images st)));
                   ("text"%string, JString (text st))]) /\
  Json.parse (blob_content file) ≫= read_export = Some (images st, text st) /\
  length (List.map image_to_JSON (images st)) = length (images st) /\
  (forall i : nat,
     List.map image_to_JSON (images st) !! i = image_to_JSON <$> images st !! i) /\
  (length (images st) = 9%nat -> length (List.map image_to_JSON (images st)) = 9%nat) /\
  download_name file = "nine-picture-grid.json"%string.
Proof.
  cbn [handleDownload fst blob_content download_name].
  rewrite parse_stringify_export.
  split; [done|]. split; [apply read_export_dataToExport|].
  split; [apply length_map|]. split; [|split; [|done]].
  - intros i. rewrite <- list_lookup_fmap. done.
  - intros H. by rewrite length_map.
Qed.

(** ** Scenarios *)

Example match_slot_user : match_slot "user-42-slot-3-1000" = Some "3"%string.
Proof. reflexivity. Qed.

Example match_slot_leftmost : match_slot "user-slot-7--slot-3-1000" = Some "7"%string.
Proof. reflexivity. Qed.

Example match_slot_anchored_legacy : match_slot_anchored "slot-5-1000" = Some "5"%string.
Proof. reflexivity. Qed.

Example match_slot_anchored_prefixed : match_slot_anchored "user-42-slot-3-1000" = None.
Proof. reflexivity. Qed.

Example split_slash_url :
  JS.split_slash "https://h/object/public/b/slot-1-7" =
  ["https:"; EmptyString; "h"; "object"; "public"; "b"; "slot-1-7"]%string.
Proof. reflexivity. Qed.

Example upload_name_user : upload_name (Some "42"%string) 2 1000 = "user-42-slot-3-1000"%string.
Proof. reflexivity. Qed.

Example too_large_message : megabytes_toFixed2 (6 * 1024 * 1024) = "6.00"%string.
Proof. reflexivity. Qed.

(** A listing with one object of user 42 for slot 3: entry 2 is its URL, the
    other eight are [None]. *)
Example scenario_user_object :
  reconcile demoPublicUrl (Some user42) [ {| fo_name := "user-42-slot-3-1000" |} ] =
  [None; None; Some (demoPublicUrl "user-42-slot-3-1000"); None; None; None; None; None; None].
Proof. reflexivity. Qed.

(** A legacy name is skipped when a user is signed in. *)
Example scenario_legacy_with_user :
  images (page (run (store_listing [ {| fo_name := "slot-5-1000" |} ])
                    (loadImagesFromSupabase demoPublicUrl (Some user42) false)
                    initialState)) = replicate 9 None.
Proof. reflexivity. Qed.

(** User 4 is shown the object of user 42: eligibility is a prefix test. *)
Example scenario_prefix_of_other_user :
  reconcile demoPublicUrl (Some {| user_id := "4" |}) [ {| fo_name := "user-42-slot-3-1000" |} ]
  !! 2%nat = Some (Some (demoPublicUrl "user-42-slot-3-1000")).
Proof. reflexivity. Qed.

Lemma C1_reconcile_listing_witness :
  let imgs :=
    images (page (run (store_listing [ {| fo_name := "user-42-slot-3-1000" |} ])
                      (loadImagesFromSupabase demoPublicUrl (Some user42) false)
                      initialState)) in
  length imgs = 9%nat /\ imgs !! 0%nat = Some None.
Proof.
  pose proof (C1_reconcile_listing demoPublicUrl user42
                [ {| fo_name := "user-42-slot-3-1000" |} ]
                (store_listing [ {| fo_name := "user-42-slot-3-1000" |} ])
                initialState eq_refl eq_refl) as (Hlen & Hrest).
  destruct (Hrest ltac:(discriminate)) as (_ & _ & Hnull).
  split; [exact Hlen|].
  apply Hnull; [lia|].
  intros file m1 Hin _ Hm Hi.
  apply list_elem_of_singleton in Hin. subst file.
  injection Hm as <-. discriminate Hi.
Defined.

(** C1 does not extend to empty listings: after user 42 loaded an object
    into slot 1, a second load that lists nothing leaves the URL in place,
    although no listed object matches the slot. *)
Lemma C1_empty_listing_keeps_stale_entry :
  let user := Some user42 in
  let st1 := page (run (store_listing [ {| fo_name := "user-42-slot-1-1000" |} ])
                       (loadImagesFromSupabase demoPublicUrl user false) initialState) in
  let imgs := images (page (run (store_listing [])
                                (loadImagesFromSupabase demoPublicUrl user false) st1)) in
  imgs !! 0%nat = Some (Some (demoPublicUrl "user-42-slot-1-1000")) /\
  ~ (forall i, (i < 9)%nat ->
       (forall file, file ∈ @nil FileObject -> slot_target user file <> Some i) ->
       imgs !! i = Some None).
Proof.
  split; [reflexivity|].
  intros H. specialize (H 0%nat ltac:(lia)).
  assert (forall file, file ∈ @nil FileObject ->
                       slot_target (Some user42) file <> Some 0%nat) as Hno.
  { intros file Hin. inversion Hin. }
  specialize (H Hno). discriminate H.
Qed.

(** C2.  With no signed-in user (and authentication settled) the loader
    resets the nine slots and returns before it lists the bucket: the legacy
    object [slot-5-1000] is not loaded into slot 5, although the loop, run
    on that listing without a user, would place it there. *)
Theorem C2_legacy_object_not_loaded :
  let listing := [ {| fo_name := "slot-5-1000" |} ] in
  let w := run (store_listing listing)
               (loadImagesFromSupabase demoPublicUrl None false) initialState in
  images (page w) !! 4%nat = Some None /\
  filter is_call (trace w) = [] /\
  reconcile demoPublicUrl None listing !! 4%nat = Some (Some (demoPublicUrl "slot-5-1000")).
Proof. split; [|split]; reflexivity. Qed.

Lemma C3_invalid_file_rejected_witness :
  let f := png_of_size (6 * 1024 * 1024) in
  let w := run (store_listing [])
               (AddImage demoPublicUrl (gridProps initialState (Some user42)) 1000 4 f)
               initialState in
  (5 * 1024 * 1024 < file_size f)%N /\
  filter is_call (trace w) = [] /\ page w = initialState.
Proof.
  assert (5 * 1024 * 1024 < file_size (png_of_size (6 * 1024 * 1024)))%N as Hbig
    by reflexivity.
  destruct (C3_invalid_file_rejected demoPublicUrl
              (gridProps initialState (Some user42)) 1000 4
              (png_of_size (6 * 1024 * 1024)) (store_listing []) initialState
              (or_intror Hbig)) as (_ & Hcalls & _ & Hpage).
  split; [exact Hbig|]. split; [exact Hcalls|exact Hpage].
Defined.

Lemma C4_start_finish_paired_witness :
  let f := png_of_size 1024 in
  let w := run (store_failing {| message := "denied" |})
               (AddImage demoPublicUrl (gridProps initialState (Some user42)) 1000 4 f)
               initialState in
  valid_file f = true /\
  filter is_start (trace w) = [performed (onStartUpload 4)] /\
  filter is_finish (trace w) = [performed (onFinishUpload 4)] /\
  isUploading (page w) 4 = false.
Proof.
  destruct (C4_start_finish_paired demoPublicUrl (Some user42) 1000 4 (png_of_size 1024)
              (store_failing {| message := "denied" |}) initialState eq_refl)
    as (Hs & Hf & _ & Hb).
  split; [reflexivity|]. split; [exact Hs|]. split; [exact Hf|exact Hb].
Defined.

Lemma C5_remove_always_clears_witness :
  let w := run (store_failing {| message := "denied" |})
               (RemoveImage demoPublicUrl (gridProps state_with_slot3 (Some user42)) 1000 2)
               state_with_slot3 in
  JS.array_get (images (page w)) 2 = None /\
  filter is_call (trace w) = [called (storage_remove ["user-42-slot-3-1000"%string])].
Proof.
  destruct (C5_remove_always_clears demoPublicUrl (Some user42) 1000 2
              (store_failing {| message := "denied" |}) state_with_slot3)
    as (Hnull & _ & _ & Hurl).
  split; [exact Hnull|].
  destruct (Hurl (demoPublicUrl "user-42-slot-3-1000") eq_refl eq_refl) as (Hcall & _).
  exact Hcall.
Defined.

Lemma C6_upload_error_keeps_slots_witness :
  let f := png_of_size 1024 in
  let store := store_throwing {| message := "network down" |} in
  let w := run store
               (AddImage demoPublicUrl (gridProps state_with_slot3 (Some user42)) 1000 2 f)
               state_with_slot3 in
  valid_file f = true /\
  uploaded (store (storage_upload (upload_name (Some "42"%string) 2 1000) f)) = None /\
  images (page w) = images state_with_slot3 /\
  isUploading (page w) 2 = false.
Proof.
  destruct (C6_upload_error_keeps_slots demoPublicUrl (Some user42) 1000 2 (png_of_size 1024)
              (store_throwing {| message := "network down" |}) state_with_slot3
              eq_refl eq_refl) as (Himg & _ & _ & Hb).
  split; [reflexivity|]. split; [reflexivity|]. split; [exact Himg|exact Hb].
Defined.

Lemma C7_export_round_trips_witness :
  length (images state_with_slot3) = 9%nat /\
  Json.parse (blob_content (handleDownload state_with_slot3).1) ≫= read_export
  = Some (images state_with_slot3, text state_with_slot3) /\
  length (List.map image_to_JSON (images state_with_slot3)) = 9%nat.
Proof.
  destruct (C7_export_round_trips state_with_slot3) as (_ & Hread & _ & _ & Hnine & _).
  split; [reflexivity|]. split; [exact Hread|]. exact (Hnine eq_refl).
Defined.

Lemma C8_last_processed_wins_witness :
  let a := {| fo_name := "user-42-slot-3-1000" |} in
  let b := {| fo_name := "user-42-slot-3-2000" |} in
  slot_target (Some user42) a = Some 2%nat /\
  slot_target (Some user42) b = Some 2%nat /\
  images (page (run (store_listing [a; b])
                    (loadImagesFromSupabase demoPublicUrl (Some user42) false)
                    initialState)) !! 2%nat
  = Some (Some (demoPublicUrl "user-42-slot-3-2000")).
Proof.
  split; [reflexivity|]. split; [reflexivity|].
  apply (C8_last_processed_wins demoPublicUrl user42 _ initialState [] [] []
           {| fo_name := "user-42-slot-3-1000" |} {| fo_name := "user-42-slot-3-2000" |} 2).
  - reflexivity.
  - reflexivity.
  - reflexivity.
  - intros f Hf. inversion Hf.
Defined.

Lemma C9_nine_slots_always_witness :
  reachable demoPublicUrl system_uploaded /\
  length (images (sys_page system_uploaded)) = 9%nat /\
  images (sys_page system_uploaded) !! 4%nat
  = Some (Some (demoPublicUrl "user-42-slot-5-2000")).
Proof.
  assert (reachable demoPublicUrl system_uploaded) as Hreach.
  { unfold reachable, system_uploaded, system_uploading, system_loaded.
    eapply rtc_l; [apply (step_auth demoPublicUrl initialSystem (Some user42) false)|].
    eapply rtc_l; [apply (step_settle_first demoPublicUrl (store_listing listing_slot3));
                   discriminate|].
    eapply rtc_l; [apply (step_add demoPublicUrl _ (Some user42) 2000 4
                            (Some (png_of_size 1024))); simpl; lia|].
    eapply rtc_l; [apply (step_settle_first demoPublicUrl (store_listing listing_slot3));
                   discriminate|].
    apply rtc_refl. }
  split; [exact Hreach|]. split; [|reflexivity].
  exact (proj2 (C9_nine_slots_always demoPublicUrl) _ Hreach).
Defined.

Lemma C10_successful_add_frame_witness :
  let f := png_of_size 1024 in
  let store := store_listing [] in
  let props := gridProps state_with_slot3 (Some user42) in
  let w := run store (AddImage demoPublicUrl props 1000 4 f) state_with_slot3 in
  valid_file f = true /\
  uploaded (store (storage_upload (upload_name (p_userId props) 4 1000) f))
  = Some {| path := "user-42-slot-5-1000" |} /\
  JS.array_get (images (page w)) 4 = Some (demoPublicUrl "user-42-slot-5-1000") /\
  JS.array_get (images (page w)) 2 = Some (demoPublicUrl "user-42-slot-3-1000") /\
  text (page w) = text state_with_slot3.
Proof.
  destruct (C10_successful_add_frame demoPublicUrl
              (gridProps state_with_slot3 (Some user42)) 1000 4 (png_of_size 1024)
              (store_listing []) state_with_slot3 {| path := "user-42-slot-5-1000" |}
              eq_refl eq_refl) as (_ & Hframe & Hnew & _ & Htext).
  split; [reflexivity|]. split; [reflexivity|]. split; [exact Hnew|].
  split; [|exact Htext].
  rewrite (Hframe 2%nat); [reflexivity|discriminate].
Defined.

(** * Further properties *)

(** ** Object names and the loader *)

Section NameFacts.

Variable getPublicUrl : string -> string.

Lemma prefix_refl_app p r : String.prefix p (p +:+ r) = true.
Proof.
  induction p as [|c p IH]; [by destruct r|].
  change (String c p +:+ r) with (String c (p +:+ r)). simpl.
  destruct (ascii_dec c c); [done|congruence].
Qed.

Lemma prefix_trans a b c :
  String.prefix a b = true -> String.prefix b c = true -> String.prefix a c = true.
Proof.
  revert a b. induction c as [|z c IH]; intros a b Hab Hbc.
  - destruct b; [|done]. by destruct a.
  - destruct a as [|x a]; [done|]. destruct b as [|y b]; [done|].
    simpl in *. destruct (ascii_dec x y) as [->|]; [|done].
    destruct (ascii_dec y z) as [->|]; [|done]. eauto.
Qed.

Lemma prefix_same_length a b r :
  String.prefix a (b +:+ r) = true -> String.length a = String.length b -> a = b.
Proof.
  revert b. induction a as [|x a IH]; intros [|y b] H Hlen; simpl in *; try done.
  change (String y b +:+ r) with (String y (b +:+ r)) in H. simpl in H.
  destruct (ascii_dec x y) as [->|]; [|done].
  f_equal. apply IH; [done|lia].
Qed.

Lemma match_slot_anchored_other c r :
  Ascii.eqb "s" c = false -> match_slot_anchored (String c r) = None.
Proof. intros H. unfold match_slot_anchored. cbn [JS.strip_prefix]. by rewrite H. Qed.

Lemma match_slot_skip u r :
  occurs "s" u = false -> match_slot (u +:+ r) = match_slot r.
Proof.
  induction u as [|c u IH]; [done|]. simpl. intros [Hc Hu]%orb_false_iff.
  change (String c u +:+ r) with (String c (u +:+ r)).
  cbn [match_slot]. rewrite match_slot_anchored_other by done. by apply IH.
Qed.

Lemma match_slot_user_prefix r : match_slot ("user-" +:+ r) = match_slot r.
Proof. reflexivity. Qed.

Lemma slot_label_name index rest :
  (index < 9)%nat ->
  match_slot ("-slot-" +:+ slot_label index +:+ "-" +:+ rest) ≫= slot_in_range = Some index.
Proof.
  intros H.
  do 9 (destruct index as [|index]; [by destruct rest|]). lia.
Qed.


(** X1.  An object uploaded by AddImage for a user whose id is not empty
    and holds no letter [s], into one of the nine cells, is mapped by the
    loader to the cell it was uploaded from; listed first and not followed
    by another object for that cell, it is what the cell shows after a
    reload. *)
Theorem upload_is_reloaded_in_place (u : string) (index : nat) (now : N) :
  JS.truthy u = true ->
  occurs "s" u = false ->
  (index < 9)%nat ->
  let file := {| fo_name := upload_name (Some u) index now |} in
  slot_target (Some {| user_id := u |}) file = Some index /\
  forall files,
    (forall f, f ∈ files -> slot_target (Some {| user_id := u |}) f <> Some index) ->
    reconcile getPublicUrl (Some {| user_id := u |}) (file :: files) !! index
    = Some (Some (getPublicUrl (fo_name file))).
Proof.
  intros Hu Hs Hi file.
  assert (slot_target (Some {| user_id := u |}) file = Some index) as Ht.
  { unfold slot_target, file, upload_name. cbn [fo_name user_id]. rewrite Hu.
    unfold JS.startsWith.
    rewrite <- (app_assoc_str "user-" u), prefix_refl_app, app_assoc_str.
    rewrite match_slot_user_prefix, match_slot_skip by done.
    by apply slot_label_name. }
  split; [exact Ht|]. intros files Hfiles.
  apply (loop_last_wins getPublicUrl _ [] file files); [done|done|done].
Qed.


Lemma loop_all_skipped user files acc :
  (forall f, f ∈ files -> slot_target user f = None) ->
  fold_left (process_file getPublicUrl user (userPrefix_of user)) files acc = acc.
Proof.
  revert acc. induction files as [|f files IH]; intros acc H; [done|].
  simpl. rewrite process_file_target, (H f) by left. apply IH.
  intros f' Hf'. apply H. by right.
Qed.

Lemma upload_name_falsy userId index now :
  JS.truthy_opt userId = false ->
  upload_name userId index now = "slot-" +:+ slot_label index +:+ "-" +:+ JS.show now.
Proof. by destruct userId as [[|c w]|]. Qed.

Lemma legacy_name_not_eligible u userId index now :
  JS.truthy_opt userId = false ->
  slot_target (Some u) {| fo_name := upload_name userId index now |} = None.
Proof.
  intros H. unfold slot_target. cbn [fo_name]. by rewrite upload_name_falsy.
Qed.

(** X2.  Objects uploaded without a user id (the [slot-N-time] names) are
    skipped for every signed-in user: a listing made only of such objects
    loads as nine empty slots. *)
Theorem uploads_without_user_never_loaded (u : User) (files : list FileObject)
    (store : Store) (st : PageState) :
  store storage_list = Fulfilled {| data := Some files; error := None |} ->
  files <> [] ->
  (forall f, f ∈ files ->
     exists userId index now,
       JS.truthy_opt userId = false /\ fo_name f = upload_name userId index now) ->
  images (page (run store (loadImagesFromSupabase getPublicUrl (Some u) false) st))
  = replicate 9 None.
Proof.
  intros Hs Hne Hfiles. rewrite (load_listing getPublicUrl _ _ _ _ Hs).
  destruct files as [|f0 fs] eqn:E; [done|]. rewrite <- E in *.
  unfold reconcile. apply loop_all_skipped.
  intros f Hf. destruct (Hfiles f Hf) as (userId & index & now & Hfalsy & Hname).
  destruct f as [name]. cbn [fo_name] in Hname. subst name.
  by apply legacy_name_not_eligible.
Qed.

(** X3.  An object uploaded by one user is not eligible for another user
    whose id is different and of the same length. *)
Theorem other_user_upload_not_eligible (u1 u2 : string) (index : nat) (now : N) :
  String.length u1 = String.length u2 ->
  u1 <> u2 ->
  slot_target (Some {| user_id := u1 |}) {| fo_name := upload_name (Some u2) index now |}
  = None.
Proof.
  intros Hlen Hne.
  destruct (JS.truthy u2) eqn:Hu2.
  - unfold slot_target, upload_name. cbn [fo_name user_id]. rewrite Hu2.
    destruct (JS.startsWith _ _) eqn:Hp; [|done].
    exfalso. apply Hne. unfold JS.startsWith in Hp.
    change (String.prefix u1 (u2 +:+ "-slot-" +:+ slot_label index +:+ "-" +:+ JS.show now) = true) in Hp.
    by eapply prefix_same_length.
  - apply legacy_name_not_eligible. simpl. done.
Qed.

(** X4.  Eligibility is a prefix test: a user whose id is a prefix of
    another user's id is shown that user's objects, in the same slots. *)
Theorem prefix_user_sees_objects (u1 u2 : User) (file : FileObject) (i : nat) :
  String.prefix (user_id u1) (user_id u2) = true ->
  slot_target (Some u2) file = Some i ->
  slot_target (Some u1) file = Some i.
Proof.
  intros Hpre. unfold slot_target.
  destruct (JS.startsWith (fo_name file) ("user-" +:+ user_id u2)) eqn:H2; [|done].
  assert (JS.startsWith (fo_name file) ("user-" +:+ user_id u1) = true) as ->; [|done].
  unfold JS.startsWith in *.
  eapply prefix_trans; [|exact H2].
  change (String.prefix (user_id u1) (user_id u2) = true) . exact Hpre.
Qed.

(** X5.  AddImage on a valid file issues exactly one call to the store:
    the upload of that file under [user-<id>-slot-<index+1>-<now>], or
    [slot-<index+1>-<now>] without a user id. *)
Theorem valid_add_single_upload_call (props : ImageGridProps) (now : N) (index : nat)
    (f : File) (store : Store) (st : PageState) :
  valid_file f = true ->
  filter is_call (trace (run store (AddImage getPublicUrl props now index f) st))
  = [called (storage_upload (upload_name (p_userId props) index now) f)].
Proof.
  intros Hv. rewrite (AddImage_valid getPublicUrl _ _ _ _ Hv).
  unfold run, handleImageChange, upload_catch, upload_finally, when_provided.
  destruct (p_onStartUpload props), (p_onFinishUpload props); simpl;
    by destruct (store _) as [[[d|] [e|]]|e].
Qed.

End NameFacts.

Section MoreLoaderFacts.

Variable getPublicUrl : string -> string.

Abbreviation loop user := (fold_left (process_file getPublicUrl user (userPrefix_of user))).

Lemma process_file_length user acc f :
  length acc = 9%nat ->
  length (process_file getPublicUrl user (userPrefix_of user) acc f) = 9%nat.
Proof. intros H. by apply (loop_length getPublicUrl user [f]). Qed.

Lemma process_file_commute user acc x y :
  length acc = 9%nat ->
  (forall i, slot_target user x = Some i -> slot_target user y = Some i -> False) ->
  process_file getPublicUrl user (userPrefix_of user)
    (process_file getPublicUrl user (userPrefix_of user) acc x) y =
  process_file getPublicUrl user (userPrefix_of user)
    (process_file getPublicUrl user (userPrefix_of user) acc y) x.
Proof.
  intros Hacc Hne. rewrite !process_file_target.
  destruct (slot_target user x) as [i|] eqn:Ex, (slot_target user y) as [j|] eqn:Ey; try done.
  pose proof (slot_target_lt _ _ _ Ex). pose proof (slot_target_lt _ _ _ Ey).
  rewrite (array_set_in_range acc i), (array_set_in_range acc j) by lia.
  rewrite !array_set_in_range by (rewrite length_insert; lia).
  apply list_insert_insert_ne. intros ->. by eapply Hne.
Qed.

Lemma loop_permutation user files files' :
  files ≡ₚ files' ->
  NoDup (targets user files) ->
  forall acc, length acc = 9%nat -> loop user files acc = loop user files' acc.
Proof.
  induction 1 as [|x l l' Hperm IH|x y l|l1 l2 l3 H12 IH12 H23 IH23]; intros Hnd acc Hacc.
  - done.
  - simpl. apply IH; [|by apply process_file_length].
    unfold targets in *. simpl in Hnd.
    destruct (slot_target user x); [by apply NoDup_cons in Hnd as [_ ?]|done].
  - simpl. f_equal. apply process_file_commute; [done|].
    intros i Hx Hy. unfold targets in Hnd. simpl in Hnd. rewrite Hx, Hy in Hnd.
    apply NoDup_cons in Hnd as [Hin _]. apply Hin. left.
  - rewrite IH12 by done. apply IH23; [|done].
    unfold targets in *. by rewrite <- H12.
Qed.

(** X6.  The order of the listing matters only on collisions: two
    listings with the same objects, no two of which map to the same slot,
    load the same image array. *)
Theorem listing_order_irrelevant_without_collision (u : User)
    (files files' : list FileObject) (store store' : Store) (st : PageState) :
  store storage_list = Fulfilled {| data := Some files; error := None |} ->
  store' storage_list = Fulfilled {| data := Some files'; error := None |} ->
  files ≡ₚ files' ->
  NoDup (targets (Some u) files) ->
  images (page (run store (loadImagesFromSupabase getPublicUrl (Some u) false) st)) =
  images (page (run store' (loadImagesFromSupabase getPublicUrl (Some u) false) st)).
Proof.
  intros Hs Hs' Hperm Hnd.
  rewrite (load_listing getPublicUrl _ _ _ _ Hs), (load_listing getPublicUrl _ _ _ _ Hs').
  destruct files as [|f fs] eqn:E.
  - apply Permutation_nil_l in Hperm. by subst files'.
  - destruct files' as [|f' fs'] eqn:E'.
    { by apply Permutation_nil_r in Hperm. }
    rewrite <- E, <- E' in *. unfold reconcile. by apply loop_permutation.
Qed.

(** X7.  When the listing call fails (error value or rejection) the
    loader leaves every slot as it was, clears the loading flag, shows one
    destructive toast and logs one error on the debug bus. *)
Theorem load_failure_keeps_images (u : User) (store : Store) (st : PageState) :
  (match store storage_list with
   | Fulfilled res => is_Some (error res)
   | Rejected _ => True
   end) ->
  let w := run store (loadImagesFromSupabase getPublicUrl (Some u) false) st in
  images (page w) = images st /\
  isLoading (page w) = false /\
  filter is_images_change (trace w) = [] /\
  (exists description,
     filter is_toast (trace w) = [performed (toast "Failed to load images" description true)]) /\
  filter is_error_log (trace w)
  = [performed (emitDebugEvent error_t "Failed to load images from storage")].
Proof.
  intros H w. subst w. unfold run, loadImagesFromSupabase. simpl.
  destruct (store storage_list) as [[d [e|]]|e]; simpl in *.
  - repeat split; eauto.
  - by destruct H.
  - repeat split; eauto.
Qed.

(** X8.  While authentication is loading the loader does nothing at all;
    otherwise it always ends with the loading flag cleared, and it never
    touches the text or the busy list. *)
Theorem load_settles_loading_flag (user : option User) (isAuthLoading : bool)
    (store : Store) (st : PageState) :
  let w := run store (loadImagesFromSupabase getPublicUrl user isAuthLoading) st in
  (isAuthLoading = true -> page w = st /\ trace w = []) /\
  (isAuthLoading = false -> isLoading (page w) = false /\ text (page w) = text st /\
                            uploadingSlots (page w) = uploadingSlots st).
Proof.
  intros w. subst w. split.
  - intros ->. unfold run, loadImagesFromSupabase.
    destruct user; simpl; by destruct st.
  - intros ->. unfold run, loadImagesFromSupabase.
    destruct user as [u|]; simpl; [|done].
    destruct (store storage_list) as [[[files|] [e|]]|e]; simpl; try done.
    by destruct (0 <? length files)%nat.
Qed.

(** X9.  Loading is idempotent: running the loader a second time against
    the same store and identity leaves the page as the first run left
    it. *)
Theorem load_idempotent (user : option User) (isAuthLoading : bool)
    (store : Store) (st : PageState) :
  let load := run store (loadImagesFromSupabase getPublicUrl user isAuthLoading) in
  page (load (page (load st))) = page (load st).
Proof.
  intros load. subst load. unfold run, loadImagesFromSupabase.
  destruct user as [u|], isAuthLoading; simpl; try by destruct st.
  destruct (store storage_list) as [[[files|] [e|]]|e]; simpl; try done.
  by destruct (0 <? length files)%nat.
Qed.

End MoreLoaderFacts.

(** ** The grid and concurrent handlers *)

Section MoreGridFacts.

Variable getPublicUrl : string -> string.

(** X10.  RemoveImage changes no other slot, keeps the length of the array
    when the index is one of its positions, and leaves the text and the
    busy list alone; on a slot that holds no image it makes no call to the
    store and only hands the array over. *)
Theorem remove_frame (props : ImageGridProps) (now : N) (index : nat)
    (store : Store) (st : PageState) :
  let w := run store (RemoveImage getPublicUrl props now index) st in
  (forall j, j <> index ->
     JS.array_get (images (page w)) j = JS.array_get (p_images props) j) /\
  ((index < length (p_images props))%nat ->
     length (images (page w)) = length (p_images props)) /\
  text (page w) = text st /\
  uploadingSlots (page w) = uploadingSlots st /\
  (JS.truthy_opt (JS.array_get (p_images props) index) = false ->
     trace w = [performed (onImagesChange (JS.array_set (p_images props) index None))]).
Proof.
  intros w.
  assert (images (page w) = JS.array_set (p_images props) index None) as Himg
    by apply RemoveImage_run.
  rewrite Himg. split; [|split; [|split; [|split]]].
  - intros j Hj. by apply array_get_set_ne.
  - apply array_set_length.
  - subst w. unfold run, RemoveImage, handleImageChange.
    destruct (JS.truthy_opt _); simpl; [|done].
    by destruct (store _) as [[? [e|]]|e].
  - subst w. unfold run, RemoveImage, handleImageChange.
    destruct (JS.truthy_opt _); simpl; [|done].
    by destruct (store _) as [[? [e|]]|e].
  - intros Hempty. subst w. unfold run, RemoveImage, handleImageChange.
    by rewrite Hempty.
Qed.

Lemma busy_other_slot (index j : nat) (l : list nat) :
  j <> index ->
  bool_decide (j ∈ filter (fun slot => slot <> index) (l ++ [index])) = bool_decide (j ∈ l).
Proof.
  intros Hne. apply bool_decide_ext.
  rewrite list_elem_of_filter, elem_of_app, list_elem_of_singleton.
  split; [intros [_ [Hin|Heq]]; [done|by destruct Hne]|intros Hin; split; [done|by left]].
Qed.

(** X11.  AddImage never changes the busy flag of another slot, whether the
    file is rejected, the upload fails or it succeeds. *)
Theorem add_busy_flag_frame (user : option User) (now : N) (index : nat)
    (f : File) (store : Store) (st : PageState) (j : nat) :
  j <> index ->
  isUploading (page (run store (AddImage getPublicUrl (gridProps st user) now index f) st)) j
  = isUploading st j.
Proof.
  intros Hne. destruct (valid_file f) eqn:Hv.
  - rewrite (AddImage_valid getPublicUrl _ _ _ _ Hv).
    unfold run, handleImageChange. simpl.
    destruct (store _) as [[[d|] [e|]]|e]; simpl; by apply busy_other_slot.
  - destruct (AddImage_invalid getPublicUrl (gridProps st user) now index f Hv)
      as (msg & title & ->). done.
Qed.


Lemma handleFileChange_valid index k f :
  valid_file f = true ->
  handleFileChange index k (Some f) =
  Do (emitDebugEvent info_t ("File selected for upload in slot " +:+ slot_label index))
     (k index (Some f)).
Proof.
  intros [H1 H2]%valid_file_checks. unfold handleFileChange. by rewrite H1, H2.
Qed.

Lemma start_add_step user now index f (s : System) :
  (index < length (images (sys_page s)))%nat ->
  step getPublicUrl s (start_add getPublicUrl user now index f s).
Proof. intros H. by apply step_add. Qed.

Lemma start_add_valid_page user now index f (s : System) :
  valid_file f = true ->
  sys_page (start_add getPublicUrl user now index f s)
  = handleStartImageUpload index (sys_page s) /\
  exists susp, sys_pending (start_add getPublicUrl user now index f s)
               = sys_pending s ++ [susp].
Proof.
  intros Hv. unfold start_add. rewrite handleFileChange_valid by done.
  unfold handleImageChange. simpl. eauto.
Qed.

(** X12.  Two uploads started on different cells before either finished
    both capture the same array: when both succeed, the second to finish
    hands over its own copy, and the cell of the first shows again what it
    showed before, although its object was stored. *)
Theorem concurrent_adds_lose_first (user : option User) (now1 now2 : N) (i j : nat)
    (f1 f2 : File) (d1 d2 : UploadData) (store : Store) (s : System) :
  sys_pending s = [] ->
  valid_file f1 = true -> valid_file f2 = true ->
  i <> j ->
  uploaded (store (storage_upload (upload_name (user_id <$> user) i now1) f1)) = Some d1 ->
  uploaded (store (storage_upload (upload_name (user_id <$> user) j now2) f2)) = Some d2 ->
  let s1 := start_add getPublicUrl user now1 i f1 s in
  let s2 := start_add getPublicUrl user now2 j f2 s1 in
  let s3 := settle_first store s2 in
  let s4 := settle_first store s3 in
  JS.array_get (images (sys_page s3)) i = Some (getPublicUrl (path d1)) /\
  images (sys_page s4)
  = JS.array_set (images (sys_page s)) j (Some (getPublicUrl (path d2))) /\
  JS.array_get (images (sys_page s4)) i = JS.array_get (images (sys_page s)) i /\
  sys_pending s4 = [] /\
  ((i < length (images (sys_page s)))%nat -> (j < length (images (sys_page s)))%nat ->
   rtc (step getPublicUrl) s s4).
Proof.
  intros Hpend Hv1 Hv2 Hij Hu1 Hu2 s1 s2 s3 s4.
  assert (JS.array_get (images (sys_page s3)) i = Some (getPublicUrl (path d1)) /\
          images (sys_page s4)
          = JS.array_set (images (sys_page s)) j (Some (getPublicUrl (path d2))) /\
          sys_pending s2 <> [] /\ sys_pending s3 <> [] /\
          sys_pending s4 = []) as (H3 & H4 & Hp2 & Hp3 & Hp4).
  { subst s4 s3 s2 s1. destruct s as [pg tr pend]. simpl in Hpend. subst pend.
    unfold start_add, settle_first.
    rewrite !handleFileChange_valid by done.
    unfold handleImageChange. simpl.
    destruct (store (storage_upload (upload_name (user_id <$> user) i now1) f1))
      as [[[d|] [e|]]|e]; simpl in Hu1; try discriminate Hu1. injection Hu1 as ->.
    simpl.
    destruct (store (storage_upload (upload_name (user_id <$> user) j now2) f2))
      as [[[d|] [e|]]|e]; simpl in Hu2; try discriminate Hu2. injection Hu2 as ->.
    simpl. split; [apply array_get_set_eq|done]. }
  split; [exact H3|]. split; [exact H4|]. split; [|split; [exact Hp4|]].
  - rewrite H4. by apply array_get_set_ne.
  - intros Hi Hj.
    eapply rtc_l; [by apply (start_add_step user now1 i f1)|].
    eapply rtc_l.
    { apply (start_add_step user now2 j f2).
      destruct (start_add_valid_page user now1 i f1 s Hv1) as [E _].
      rewrite E. exact Hj. }
    eapply rtc_l; [by apply (step_settle_first getPublicUrl store)|].
    eapply rtc_l; [by apply (step_settle_first getPublicUrl store)|].
    apply rtc_refl.
Qed.

(** X13.  The busy list is not a counter: with two uploads in flight on one
    cell, the cell stops being busy when the first of them settles, however
    it settles, while the other is still pending. *)
Theorem busy_flag_is_not_counted (user : option User) (now1 now2 : N) (i : nat)
    (f1 f2 : File) (store : Store) (s : System) :
  sys_pending s = [] ->
  valid_file f1 = true -> valid_file f2 = true ->
  let s2 := start_add getPublicUrl user now2 i f2 (start_add getPublicUrl user now1 i f1 s) in
  let s3 := settle_first store s2 in
  isUploading (sys_page s2) i = true /\
  isUploading (sys_page s3) i = false /\
  length (sys_pending s3) = 1%nat.
Proof.
  intros Hpend Hv1 Hv2 s2 s3. subst s3 s2.
  destruct s as [pg tr pend]. simpl in Hpend. subst pend.
  unfold start_add, settle_first.
  rewrite !handleFileChange_valid by done.
  unfold handleImageChange. simpl.
  split.
  { unfold isUploading. simpl. apply bool_decide_eq_true_2.
    rewrite !elem_of_app, !list_elem_of_singleton. auto. }
  destruct (store (storage_upload (upload_name (user_id <$> user) i now1) f1))
    as [[[d|] [e|]]|e]; simpl;
    (split; [apply not_uploading_after_finish|done]).
Qed.

Lemma contains_slash_app a b :
  JS.contains_slash (a +:+ b) = (JS.contains_slash a || JS.contains_slash b)%bool.
Proof.
  induction a as [|c a IH]; [done|].
  change (String c a +:+ b) with (String c (a +:+ b)). simpl. rewrite IH.
  by rewrite orb_assoc.
Qed.

Lemma show_no_slash n : JS.contains_slash (JS.show n) = false.
Proof.
  unfold JS.show. generalize (N.to_uint n). intros d.
  assert (JS.contains_slash (NilEmpty.string_of_uint d) = false) as H
    by (induction d; done).
  by destruct d.
Qed.

Lemma upload_name_no_slash userId index now :
  (forall u, userId = Some u -> JS.contains_slash u = false) ->
  JS.contains_slash (upload_name userId index now) = false.
Proof.
  intros Hu. unfold upload_name, slot_label.
  destruct userId as [u|]; [destruct (JS.truthy u)|];
    rewrite !contains_slash_app, ?show_no_slash, ?(Hu u eq_refl); done.
Qed.

Lemma AddImage_success_images props now index f (store : Store) (st : PageState) d :
  valid_file f = true ->
  uploaded (store (storage_upload (upload_name (p_userId props) index now) f)) = Some d ->
  images (page (run store (AddImage getPublicUrl props now index f) st))
  = JS.array_set (p_images props) index (Some (getPublicUrl (path d))).
Proof.
  intros Hv Hup. rewrite (AddImage_valid getPublicUrl _ _ _ _ Hv).
  unfold run, handleImageChange, upload_catch, upload_finally, when_provided.
  destruct (p_onStartUpload props), (p_onFinishUpload props); simpl;
    destruct (store _) as [[[d'|] [e|]]|e]; simpl in *;
      try discriminate Hup; injection Hup as ->.
  all: done.
Qed.

Lemma RemoveImage_calls props now index (store : Store) (st : PageState) url :
  JS.array_get (p_images props) index = Some url ->
  JS.truthy url = true ->
  filter is_call (trace (run store (RemoveImage getPublicUrl props now index) st))
  = [called (storage_remove [default EmptyString (last (JS.split_slash url))])].
Proof.
  intros Hget Ht. unfold run, RemoveImage, handleImageChange.
  rewrite Hget. simpl. rewrite Ht. simpl.
  by destruct (store _) as [[? [e|]]|e].
Qed.

Lemma truthy_app_slash base p : JS.truthy (base +:+ "/" +:+ p) = true.
Proof. by destruct base. Qed.

(** X14.  Upload and removal agree on the object name: when public URLs
    have the form [base/name], the user id holds no [/] and the store
    reports the path it was given, RemoveImage after a successful AddImage
    asks the store to remove exactly the uploaded object. *)
Theorem remove_targets_uploaded_object (base : string) (user : option User) (now now' : N)
    (index : nat) (f : File) (store : Store) (st : PageState) :
  (forall p, getPublicUrl p = base +:+ "/" +:+ p) ->
  (forall u, user = Some u -> JS.contains_slash (user_id u) = false) ->
  valid_file f = true ->
  let fileName := upload_name (user_id <$> user) index now in
  uploaded (store (storage_upload fileName f)) = Some {| path := fileName |} ->
  let st1 := page (run store (AddImage getPublicUrl (gridProps st user) now index f) st) in
  let w := run store (RemoveImage getPublicUrl (gridProps st1 user) now' index) st1 in
  filter is_call (trace w) = [called (storage_remove [fileName])] /\
  JS.array_get (images (page w)) index = None.
Proof.
  intros Hurl Hu Hv fileName Hup st1 w.
  assert (images st1 = JS.array_set (images st) index (Some (getPublicUrl fileName))) as Himg
    by (apply (AddImage_success_images (gridProps st user) now index f store st
                 {| path := fileName |} Hv Hup)).
  split.
  - subst w. rewrite (RemoveImage_calls _ _ _ _ _ (getPublicUrl fileName)).
    + rewrite Hurl, last_segment; [done|].
      apply upload_name_no_slash. intros u0 Hu0.
      destruct user as [u|]; [|done]. injection Hu0 as <-. by apply Hu.
    + cbn [gridProps p_images]. rewrite Himg. apply array_get_set_eq.
    + rewrite Hurl. apply truthy_app_slash.
  - subst w. rewrite RemoveImage_run. apply array_get_set_eq.
Qed.

(** X15.  The exported document determines the grid: two states with the
    same export have the same image array and the same text. *)
Theorem export_determines_state (st1 st2 : PageState) :
  blob_content (handleDownload st1).1 = blob_content (handleDownload st2).1 ->
  images st1 = images st2 /\ text st1 = text st2.
Proof.
  cbn [handleDownload fst blob_content]. intros H.
  assert (Json.parse (Json.stringify (dataToExport st1)) ≫= read_export
          = Json.parse (Json.stringify (dataToExport st2)) ≫= read_export) as E
    by by rewrite H.
  rewrite !parse_stringify_export in E. cbn [mbind option_bind] in E.
  rewrite !read_export_dataToExport in E. by injection E.
Qed.

End MoreGridFacts.

Section BusyFacts.

Variable getPublicUrl : string -> string.

Lemma advance_busy p s :
  starts_in_grid p -> busy_in_grid s -> busy_in_grid (advance p s).
Proof.
  revert s. induction p as [|e k IH|c k IH]; intros s Hp [Hbusy Hpend]; simpl.
  - done.
  - destruct Hp as [He Hk]. apply IH; [done|]. split; simpl; [|done].
    destruct e; simpl; try done.
    + apply Forall_app. split; [done|]. by apply Forall_singleton.
    + apply Forall_forall. intros x [_ Hx]%list_elem_of_filter.
      by eapply Forall_forall in Hbusy.
  - split; simpl; [done|]. apply Forall_app. split; [done|].
    by apply Forall_singleton.
Qed.

Lemma load_starts_in_grid user isAuthLoading :
  starts_in_grid (loadImagesFromSupabase getPublicUrl user isAuthLoading).
Proof.
  unfold loadImagesFromSupabase.
  destruct (_ && _)%bool; [done|]. destruct isAuthLoading; [done|].
  simpl. split; [done|]. intros [[files [e|]]|e]; simpl; try done.
  split; [done|]. destruct files as [files|]; [|done].
  by destruct (0 <? length files)%nat.
Qed.

Lemma handleImageChange_starts_in_grid props now index file :
  (index < 9)%nat ->
  starts_in_grid (handleImageChange getPublicUrl props now index file).
Proof.
  intros Hindex.
  unfold handleImageChange, upload_catch, upload_finally, when_provided, clear_slot.
  destruct file as [f|].
  - destruct (p_onStartUpload props), (p_onFinishUpload props); simpl;
      repeat split; try done; intros [[[d|] [e|]]|e]; simpl; repeat split; done.
  - destruct (JS.truthy_opt _); simpl; [|done].
    split; [done|]. intros [[d [e|]]|e]; simpl; repeat split; done.
Qed.

Lemma handleFileChange_starts_in_grid index onImageChange file :
  (forall f, starts_in_grid (onImageChange index (Some f))) ->
  starts_in_grid (handleFileChange index onImageChange file).
Proof.
  intros Hk. unfold handleFileChange. destruct file as [f|]; [|done].
  destruct (negb _); [done|]. destruct (_ <? _)%N; [done|]. simpl. split; [done|]. apply Hk.
Qed.

Lemma step_busy s s' :
  step getPublicUrl s s' -> nine_slots s -> busy_in_grid s -> busy_in_grid s'.
Proof.
  intros Hstep [Hlen _] Hinv.
  destruct Hstep as [s user l|s user now index file Hi|s user now index Hi|s t
                    |s before after susp r Hp].
  - apply advance_busy; [apply load_starts_in_grid|done].
  - apply advance_busy; [|done].
    apply handleFileChange_starts_in_grid. intros f.
    apply handleImageChange_starts_in_grid. lia.
  - apply advance_busy; [|done].
    apply handleImageChange_starts_in_grid. lia.
  - done.
  - destruct Hinv as [Hbusy Hpend]. rewrite Hp in Hpend.
    apply Forall_app in Hpend as [Hb Ha]. apply Forall_cons in Ha as [Hs Ha].
    apply advance_busy; [apply Hs|]. split; simpl; [done|].
    apply Forall_app. done.
Qed.

(** X18.  In every reachable state of the page the busy list names only
    cells of the grid (indices below nine). *)
Theorem busy_slots_are_cells (s : System) :
  reachable getPublicUrl s ->
  Forall (fun index => (index < 9)%nat) (uploadingSlots (sys_page s)).
Proof.
  intros Hs. cut (nine_slots s /\ busy_in_grid s); [by intros [_ [? _]]|].
  revert s Hs. apply (rtc_ind_r (fun s => nine_slots s /\ busy_in_grid s)).
  - split; split; try done; constructor.
  - intros s1 s2 _ Hstep [Hn Hb]. split.
    + by eapply step_nine.
    + by eapply step_busy.
Qed.

End BusyFacts.

(** ** The debug panel *)

Lemma panel_effect_listeners now (st : PanelState) :
  listeners st = seq 0 (effect_runs st) ->
  listeners (panel_effect now st) = seq 0 (effect_runs (panel_effect now st)).
Proof.
  intros H. unfold panel_effect, addEventListener. cbn [listeners effect_runs].
  rewrite H, seq_S. rewrite decide_False; [done|].
  rewrite list_elem_of_In, in_seq. lia.
Qed.

Lemma panel_cleanup_listeners (st : PanelState) :
  listeners st = seq 0 (effect_runs st) ->
  (0 < effect_runs st)%nat ->
  panel_cleanup st = st.
Proof.
  intros H Hpos. unfold panel_cleanup, addEventListener.
  destruct st as [l ls n]. cbn [listeners effect_runs logs] in *. subst ls.
  destruct n as [|n]; [lia|].
  rewrite decide_True; [done|]. rewrite list_elem_of_In, in_seq. simpl. lia.
Qed.

Lemma panel_rerun_listeners now (st : PanelState) :
  listeners st = seq 0 (effect_runs st) ->
  (0 < effect_runs st)%nat ->
  listeners (panel_rerun now st) = seq 0 (S (effect_runs st)) /\
  effect_runs (panel_rerun now st) = S (effect_runs st).
Proof.
  intros H Hpos. unfold panel_rerun. rewrite panel_cleanup_listeners by done.
  split; [|done]. by rewrite panel_effect_listeners.
Qed.

Lemma panel_after_listeners now0 nows :
  listeners (panel_after now0 nows) = seq 0 (S (length nows)) /\
  effect_runs (panel_after now0 nows) = S (length nows).
Proof.
  unfold panel_after.
  induction nows as [|now nows IH] using rev_ind; [done|].
  rewrite fold_left_app, length_app. cbn [fold_left length]. destruct IH as [IHl IHr].
  destruct (panel_rerun_listeners now _ ltac:(by rewrite IHl, IHr) ltac:(rewrite IHr; lia))
    as [El Er].
  rewrite El, Er, IHr. split; f_equal; lia.
Qed.

Lemma dispatch_logs clock d (ls : list nat) (l0 : list LogEntry) :
  fold_left (fun l k => handleDebugEvent (clock k) (Some d) l) ls l0
  = rev (List.map (fun k => {| log_id := JS.show (clock k); log_timestamp := clock k;
                               log_type := default info_t (d_type d);
                               log_message := d_message d |}) ls) ++ l0.
Proof.
  revert l0. induction ls as [|k ls IH]; intros l0; [done|].
  simpl. rewrite IH. unfold addLog. by rewrite <- app_assoc.
Qed.

(** X16.  The panel's effect never removes a listener: after the mount and
    [n] re-runs, [n + 1] listeners are registered (the cleanup adds again
    instead of removing), so one debug event is logged [n + 1] times, in
    front of the older entries, which are kept. *)
Theorem debug_listeners_accumulate (now0 : N) (nows : list N) (clock : nat -> N) (d : Detail) :
  let st := panel_after now0 nows in
  let st' := dispatch_debug clock (Some d) st in
  length (listeners st) = S (length nows) /\
  listeners (panel_cleanup st) = listeners st /\
  length (logs st') = (S (length nows) + length (logs st))%nat /\
  (forall k, (k < S (length nows))%nat ->
     exists e, logs st' !! k = Some e /\
               log_message e = d_message d /\
               log_type e = default info_t (d_type d)) /\
  (forall k, logs st' !! (S (length nows) + k)%nat = logs st !! k).
Proof.
  intros st st'. destruct (panel_after_listeners now0 nows) as [Hl Hr].
  fold st in Hl, Hr.
  assert (logs st' = rev (List.map (fun k =>
            {| log_id := JS.show (clock k); log_timestamp := clock k;
               log_type := default info_t (d_type d);
               log_message := d_message d |}) (seq 0 (S (length nows)))) ++ logs st) as E.
  { unfold st', dispatch_debug. cbn [logs]. by rewrite dispatch_logs, Hl. }
  split; [by rewrite Hl, length_seq|]. split.
  { rewrite panel_cleanup_listeners; [done|by rewrite Hl, Hr|lia]. }
  rewrite E. split; [|split].
  - by rewrite length_app, length_rev, length_map, length_seq.
  - intros k Hk.
    rewrite lookup_app_l by (rewrite length_rev, length_map, length_seq; lia).
    destruct (rev _ !! k) as [e|] eqn:Ek.
    + exists e. split; [done|].
      apply list_elem_of_lookup_2, list_elem_of_In in Ek. rewrite <- in_rev in Ek.
      apply in_map_iff in Ek as (k' & <- & _). done.
    + apply lookup_ge_None in Ek.
      rewrite length_rev, length_map, length_seq in Ek. lia.
  - intros k. rewrite lookup_app_r by (rewrite length_rev, length_map, length_seq; lia).
    f_equal. rewrite length_rev, length_map, length_seq. lia.
Qed.

(** X17.  [checkBucket] always leaves a definite status: [exists] exactly
    when [listBuckets] succeeded and names the bucket, [error] exactly when
    it failed or returned no data.  The bucket is listed only when it
    exists, and a failure of that listing is logged without changing the
    status. *)
Theorem checkBucket_outcome (buckets : Settled (Response (list Bucket)))
    (files : Settled (Response (list FileObject))) :
  let o := checkBucket buckets files in
  (exists status, co_status o = Some status /\ status <> status_checking) /\
  (co_status o = Some status_exists <->
     exists res bs b,
       buckets = Fulfilled res /\ error res = None /\ data res = Some bs /\
       b ∈ bs /\ bucket_name b = "nine-picture-grid-images"%string) /\
  (co_listed o = true <-> co_status o = Some status_exists) /\
  (co_status o = Some status_error <->
     match buckets with
     | Fulfilled res => is_Some (error res) \/ data res = None
     | Rejected _ => True
     end) /\
  (1 <= length (co_logs o) <= 2)%nat.
Proof.
  intros o. subst o. unfold checkBucket.
  destruct buckets as [[dat [e|]]|e]; cbn [error data];
    [|destruct dat as [bs|]|].
  - split; [eexists; split; [reflexivity|done]|]. split.
    { split; [done|]. intros (res & bs' & b & H & He & _). by injection H as <-. }
    split; [done|]. split; [|simpl; lia]. split; eauto.
  - destruct (existsb _ bs) eqn:Hex.
    + assert (exists b, b ∈ bs /\ bucket_name b = "nine-picture-grid-images"%string)
        as (b & Hb & Hn).
      { apply existsb_exists in Hex as (b & Hb & Hn).
        exists b. split; [by apply list_elem_of_In|by apply String.eqb_eq]. }
      destruct files as [[? [?|]]|?]; cbn;
        (split; [eexists; split; [reflexivity|done]|]; split;
         [split; [intros _; eexists _, bs, b; done|done]|];
         split; [done|]; split; [|lia];
         split; [done|intros [[? ?]|?]; done]).
    + cbn. split; [eexists; split; [reflexivity|done]|]. split.
      { split; [done|]. intros (res & bs' & b & H & He & Hd & Hb & Hn).
        injection H as <-. cbn in Hd. injection Hd as <-.
        assert (existsb (fun bucket =>
                  String.eqb (bucket_name bucket) "nine-picture-grid-images") bs = true) as Ht.
        { apply existsb_exists. exists b.
          split; [by apply list_elem_of_In|by apply String.eqb_eq]. }
        congruence. }
      split; [done|]. split; [|lia].
      split; [done|intros [[? ?]|?]; done].
  - split; [eexists; split; [reflexivity|done]|]. split.
    { split; [done|]. intros (res & bs' & b & H & He & Hd & _).
      injection H as <-. done. }
    split; [done|]. split; [|simpl; lia]. split; eauto.
  - split; [eexists; split; [reflexivity|done]|]. split.
    { split; [done|]. by intros (res & bs' & b & H & _). }
    split; [done|]. split; [|simpl; lia]. done.
Qed.

(** ** Scenarios for the further properties *)

Lemma upload_is_reloaded_in_place_witness :
  JS.truthy "42" = true /\ occurs "s" "42" = false /\ (2 < 9)%nat /\
  slot_target (Some user42) {| fo_name := upload_name (Some "42"%string) 2 1000 |}
  = Some 2%nat.
Proof.
  split; [reflexivity|]. split; [reflexivity|]. split; [lia|].
  exact (proj1 (upload_is_reloaded_in_place demoPublicUrl "42" 2 1000
                  eq_refl eq_refl ltac:(lia))).
Defined.

Lemma uploads_without_user_never_loaded_witness :
  let files := [ {| fo_name := upload_name None 4 1000 |} ] in
  files <> [] /\
  images (page (run (store_listing files)
                    (loadImagesFromSupabase demoPublicUrl (Some user42) false)
                    state_with_slot3))
  = replicate 9 None.
Proof.
  split; [discriminate|].
  apply (uploads_without_user_never_loaded demoPublicUrl user42
           [ {| fo_name := upload_name None 4 1000 |} ]).
  - reflexivity.
  - discriminate.
  - intros f Hf. apply list_elem_of_singleton in Hf. subst f.
    exists None, 4%nat, 1000%N. split; reflexivity.
Defined.

Lemma other_user_upload_not_eligible_witness :
  String.length "42" = String.length "43" /\ "42"%string <> "43"%string /\
  slot_target (Some user42) {| fo_name := upload_name (Some "43"%string) 2 1000 |} = None.
Proof.
  split; [reflexivity|]. split; [discriminate|].
  apply (other_user_upload_not_eligible "42" "43" 2 1000); [reflexivity|discriminate].
Defined.

Lemma prefix_user_sees_objects_witness :
  let file := {| fo_name := "user-42-slot-3-1000" |} in
  String.prefix "4" "42" = true /\
  slot_target (Some user42) file = Some 2%nat /\
  slot_target (Some {| user_id := "4" |}) file = Some 2%nat.
Proof.
  split; [reflexivity|]. split; [reflexivity|].
  apply (prefix_user_sees_objects {| user_id := "4" |} user42
           {| fo_name := "user-42-slot-3-1000" |} 2); reflexivity.
Defined.

Lemma valid_add_single_upload_call_witness :
  valid_file (png_of_size 1024) = true /\
  filter is_call
    (trace (run (store_failing {| message := "denied" |})
                (AddImage demoPublicUrl (gridProps initialState (Some user42)) 1000 2
                          (png_of_size 1024))
                initialState))
  = [called (storage_upload "user-42-slot-3-1000" (png_of_size 1024))].
Proof.
  split; [reflexivity|].
  exact (valid_add_single_upload_call demoPublicUrl (gridProps initialState (Some user42))
           1000 2 (png_of_size 1024) (store_failing {| message := "denied" |})
           initialState eq_refl).
Defined.

Lemma listing_order_irrelevant_without_collision_witness :
  let a := {| fo_name := "user-42-slot-3-1000" |} in
  let b := {| fo_name := "user-42-slot-5-2000" |} in
  NoDup (targets (Some user42) [a; b]) /\
  images (page (run (store_listing [a; b])
                    (loadImagesFromSupabase demoPublicUrl (Some user42) false) initialState))
  = images (page (run (store_listing [b; a])
                      (loadImagesFromSupabase demoPublicUrl (Some user42) false) initialState)).
Proof.
  assert (NoDup (targets (Some user42)
                   [ {| fo_name := "user-42-slot-3-1000" |};
                     {| fo_name := "user-42-slot-5-2000" |} ])) as Hnd.
  { apply (NoDup_cons_2 2%nat [4%nat]).
    - intros H. apply list_elem_of_singleton in H. discriminate H.
    - apply NoDup_singleton. }
  split; [exact Hnd|].
  apply (listing_order_irrelevant_without_collision demoPublicUrl user42
           [ {| fo_name := "user-42-slot-3-1000" |}; {| fo_name := "user-42-slot-5-2000" |} ]
           [ {| fo_name := "user-42-slot-5-2000" |}; {| fo_name := "user-42-slot-3-1000" |} ]).
  - reflexivity.
  - reflexivity.
  - apply perm_swap.
  - exact Hnd.
Defined.

Lemma load_failure_keeps_images_witness :
  let w := run (store_failing {| message := "denied" |})
               (loadImagesFromSupabase demoPublicUrl (Some user42) false)
               state_with_slot3 in
  images (page w) = images state_with_slot3 /\ isLoading (page w) = false.
Proof.
  destruct (load_failure_keeps_images demoPublicUrl user42
              (store_failing {| message := "denied" |}) state_with_slot3)
    as (Himg & Hload & _).
  - simpl. eauto.
  - split; [exact Himg|exact Hload].
Defined.

Lemma load_settles_loading_flag_witness :
  page (run (store_listing listing_slot3)
            (loadImagesFromSupabase demoPublicUrl (Some user42) true) initialState)
  = initialState /\
  isLoading (page (run (store_throwing {| message := "offline" |})
                       (loadImagesFromSupabase demoPublicUrl (Some user42) false)
                       initialState)) = false.
Proof.
  split.
  - exact (proj1 (proj1 (load_settles_loading_flag demoPublicUrl (Some user42) true
                           (store_listing listing_slot3) initialState) eq_refl)).
  - exact (proj1 (proj2 (load_settles_loading_flag demoPublicUrl (Some user42) false
                           (store_throwing {| message := "offline" |}) initialState)
                        eq_refl)).
Defined.

Lemma remove_frame_witness :
  let w := run (store_listing [])
               (RemoveImage demoPublicUrl (gridProps state_with_slot3 (Some user42)) 1000 4)
               state_with_slot3 in
  JS.truthy_opt (JS.array_get (images state_with_slot3) 4) = false /\
  filter is_call (trace w) = [] /\
  JS.array_get (images (page w)) 2 = Some (demoPublicUrl "user-42-slot-3-1000").
Proof.
  destruct (remove_frame demoPublicUrl (gridProps state_with_slot3 (Some user42)) 1000 4
              (store_listing []) state_with_slot3) as (Hframe & _ & _ & _ & Hempty).
  split; [reflexivity|]. split.
  - rewrite (Hempty eq_refl). reflexivity.
  - rewrite (Hframe 2%nat); [reflexivity|discriminate].
Defined.

Lemma add_busy_flag_frame_witness :
  let st := handleStartImageUpload 7 initialState in
  (7 <> 2)%nat /\
  isUploading (page (run (store_listing [])
                         (AddImage demoPublicUrl (gridProps st (Some user42)) 1000 2
                                   (png_of_size 1024)) st)) 7 = true.
Proof.
  split; [discriminate|].
  rewrite (add_busy_flag_frame demoPublicUrl (Some user42) 1000 2 (png_of_size 1024)
             (store_listing []) (handleStartImageUpload 7 initialState) 7);
    [reflexivity|discriminate].
Defined.

Lemma concurrent_adds_lose_first_witness :
  let s2 := start_add demoPublicUrl (Some user42) 2000 1 (png_of_size 2048)
              (start_add demoPublicUrl (Some user42) 1000 0 (png_of_size 1024) initialSystem) in
  let s4 := settle_first (store_listing []) (settle_first (store_listing []) s2) in
  (0 <> 1)%nat /\
  images (sys_page s4) !! 0%nat = Some None /\
  images (sys_page s4) !! 1%nat = Some (Some (demoPublicUrl "user-42-slot-2-2000")) /\
  rtc (step demoPublicUrl) initialSystem s4.
Proof.
  destruct (concurrent_adds_lose_first demoPublicUrl (Some user42) 1000 2000 0 1
              (png_of_size 1024) (png_of_size 2048)
              {| path := "user-42-slot-1-1000" |} {| path := "user-42-slot-2-2000" |}
              (store_listing []) initialSystem
              eq_refl eq_refl eq_refl ltac:(discriminate) eq_refl eq_refl)
    as (_ & Himg & _ & _ & Hreach).
  split; [discriminate|].
  split; [rewrite Himg; reflexivity|]. split; [rewrite Himg; reflexivity|].
  apply Hreach; simpl; lia.
Defined.

Lemma busy_flag_is_not_counted_witness :
  let s2 := start_add demoPublicUrl (Some user42) 2000 3 (png_of_size 2048)
              (start_add demoPublicUrl (Some user42) 1000 3 (png_of_size 1024) initialSystem) in
  let s3 := settle_first (store_failing {| message := "denied" |}) s2 in
  isUploading (sys_page s3) 3 = false /\ length (sys_pending s3) = 1%nat.
Proof.
  destruct (busy_flag_is_not_counted demoPublicUrl (Some user42) 1000 2000 3
              (png_of_size 1024) (png_of_size 2048)
              (store_failing {| message := "denied" |}) initialSystem
              eq_refl eq_refl eq_refl) as (_ & Hidle & Hpend).
  split; [exact Hidle|exact Hpend].
Defined.

Lemma remove_targets_uploaded_object_witness :
  let st1 := page (run (store_listing [])
                       (AddImage demoPublicUrl (gridProps initialState (Some user42)) 1000 2
                                 (png_of_size 1024)) initialState) in
  let w := run (store_listing [])
               (RemoveImage demoPublicUrl (gridProps st1 (Some user42)) 3000 2) st1 in
  JS.contains_slash (user_id user42) = false /\
  filter is_call (trace w) = [called (storage_remove ["user-42-slot-3-1000"%string])].
Proof.
  split; [reflexivity|].
  apply (remove_targets_uploaded_object demoPublicUrl
           "https://demo.supabase.co/storage/v1/object/public/nine-picture-grid-images"
           (Some user42) 1000 3000 2 (png_of_size 1024) (store_listing []) initialState).
  - intros p. reflexivity.
  - intros u Hu. injection Hu as <-. reflexivity.
  - reflexivity.
  - reflexivity.
Defined.

Lemma export_determines_state_witness :
  blob_content (handleDownload state_with_slot3).1
  = blob_content (handleDownload (with_isLoading false state_with_slot3)).1 /\
  images state_with_slot3 = images (with_isLoading false state_with_slot3).
Proof.
  split; [reflexivity|].
  exact (proj1 (export_determines_state state_with_slot3
                  (with_isLoading false state_with_slot3) eq_refl)).
Defined.

Lemma system_uploading_reachable : reachable demoPublicUrl system_uploading.
Proof.
  unfold reachable, system_uploading, system_loaded.
  eapply rtc_l; [apply (step_auth demoPublicUrl initialSystem (Some user42) false)|].
  eapply rtc_l; [apply (step_settle_first demoPublicUrl (store_listing listing_slot3));
                 discriminate|].
  eapply rtc_l; [apply (step_add demoPublicUrl _ (Some user42) 2000 4
                          (Some (png_of_size 1024))); simpl; lia|].
  apply rtc_refl.
Qed.

Lemma busy_slots_are_cells_witness :
  reachable demoPublicUrl system_uploading /\
  uploadingSlots (sys_page system_uploading) = [4%nat] /\
  Forall (fun index => (index < 9)%nat) (uploadingSlots (sys_page system_uploading)).
Proof.
  split; [exact system_uploading_reachable|]. split; [reflexivity|].
  exact (busy_slots_are_cells demoPublicUrl system_uploading system_uploading_reachable).
Defined.

Lemma debug_listeners_accumulate_witness :
  let st := panel_after 10 [20; 30]%N in
  let d := {| d_type := None; d_message := "Upload failed" |} in
  listeners st = [0; 1; 2]%nat /\
  length (logs (dispatch_debug (fun _ => 40%N) (Some d) st)) = (3 + length (logs st))%nat /\
  listeners (panel_cleanup st) = listeners st.
Proof.
  destruct (debug_listeners_accumulate 10 [20; 30]%N (fun _ => 40%N)
              {| d_type := None; d_message := "Upload failed" |})
    as (_ & Hclean & Hlen & _).
  split; [reflexivity|]. split; [exact Hlen|exact Hclean].
Defined.

Lemma checkBucket_outcome_witness :
  let buckets := Fulfilled {| data := Some [ {| bucket_name := "nine-picture-grid-images" |} ];
                              error := None |} in
  let files := Fulfilled {| data := None; error := Some {| message := "row-level security" |} |} in
  co_status (checkBucket buckets files) = Some status_exists /\
  co_listed (checkBucket buckets files) = true.
Proof.
  destruct (checkBucket_outcome
              (Fulfilled {| data := Some [ {| bucket_name := "nine-picture-grid-images" |} ];
                            error := None |})
              (Fulfilled {| data := None; error := Some {| message := "row-level security" |} |}))
    as (_ & _ & Hlisted & _).
  split; [reflexivity|]. apply Hlisted. reflexivity.
Defined.
